(** * The QEMU virtual machine backend of multipass

    A shallow embedding of [src/platform/backends/qemu/qemu_virtual_machine.cpp]:
    the helpers of its anonymous namespace, the constructor, the public
    operations [start], [stop], [shutdown], [suspend], [ipv4] and the handlers
    that [create_connections] attaches to the QEMU child process.

    The Qt classes the file relies on ([QString], [QByteArray], [QJsonValue],
    [QJsonObject], [QJsonDocument]) are modelled in the first part, after the
    behaviour Qt 5 documents for them. *)

From Stdlib Require Import String Ascii List ZArith NArith Bool Lia.
From Stdlib Require Import DecimalString.
Import ListNotations.

Local Open Scope list_scope.
Local Open Scope string_scope.

Set Warnings "-register-all".

(** ** Qt strings and byte arrays *)

(** A [QString] is modelled by the bytes of its UTF-8 form and a [QByteArray]
    by its bytes.  The null [QString] (as opposed to an empty one) only shows
    up as the result of [QJsonValue::toString] and is modelled there. *)
Definition QString := string.
Definition QByteArray := string.

Module Qt.

(** [QByteArray::split(sep)] and [QString::split(sep)]: the pieces between the
    separators, empty pieces kept; never an empty list. *)
Fixpoint split (sep : ascii) (s : string) : list string :=
  match s with
  | EmptyString => [EmptyString]
  | String c s' =>
      if Ascii.eqb c sep then EmptyString :: split sep s'
      else match split sep s' with
           | [] => [String c EmptyString]
           | piece :: pieces => String c piece :: pieces
           end
  end.

(** [QList::first()], on a list that is never empty here. *)
Definition first (l : list string) : string := hd EmptyString l.

(** [QString::contains(needle)]: [needle] occurs somewhere in [s]. *)
Fixpoint contains (needle s : string) : bool :=
  String.prefix needle s ||
  match s with
  | EmptyString => false
  | String _ s' => contains needle s'
  end.

(** [QStringList::join(sep)]. *)
Definition join (sep : string) (l : list string) : string := String.concat sep l.

(** [QString("...%1...").arg(a)] for a format with the single marker [%1]. *)
Fixpoint arg (fmt a : string) : string :=
  match fmt with
  | EmptyString => EmptyString
  | String "%" (String "1" rest) => a ++ rest
  | String c rest => String c (arg rest a)
  end.

End Qt.

(** ** JSON values *)

(** [QJsonValue].  A number is kept as the decimal [m * 10^e] it was written
    as (a C++ [int] stored into a value is [JDouble n 0]); [JUndefined] is what
    the const accessors return for a missing key. *)
Inductive QJsonValue : Type :=
| JNull
| JBool (b : bool)
| JDouble (m e : Z)
| JString (s : QString)
| JArray (a : list QJsonValue)
| JObject (o : list (QString * QJsonValue))
| JUndefined.

(** [QJsonObject]: the members, kept sorted by key, one member per key. *)
Definition QJsonObject := list (QString * QJsonValue).

Module QJson.

Definition int_min : Z := - 2 ^ 31.
Definition int_max : Z := 2 ^ 31 - 1.

(** The integer a number denotes, when it denotes one. *)
Definition integral (m e : Z) : option Z :=
  if (0 <=? e)%Z then Some (m * 10 ^ e)%Z
  else if (m mod 10 ^ (- e) =? 0)%Z then Some (m / 10 ^ (- e))%Z
  else None.

(** [QJsonValue::toInt(defaultValue = 0)]: the number when the value is a number
    that is an [int], the default otherwise. *)
Definition toInt (v : QJsonValue) : Z :=
  match v with
  | JDouble m e =>
      match integral m e with
      | Some i => if ((int_min <=? i) && (i <=? int_max))%Z then i else 0%Z
      | None => 0%Z
      end
  | _ => 0%Z
  end.

(** [QJsonValue::toBool(defaultValue = false)]. *)
Definition toBool (v : QJsonValue) : bool :=
  match v with
  | JBool b => b
  | _ => false
  end.

(** [QJsonValue::toString()]: [None] is the null [QString] returned for a value
    that is not a string. *)
Definition toString (v : QJsonValue) : option QString :=
  match v with
  | JString s => Some s
  | _ => None
  end.

(** [QJsonValue::toObject()]. *)
Definition toObject (v : QJsonValue) : QJsonObject :=
  match v with
  | JObject o => o
  | _ => []
  end.

(** [QJsonValue::isNull()]. *)
Definition isNull (v : QJsonValue) : bool :=
  match v with
  | JNull => true
  | _ => false
  end.

(** [event.toString() == "..."]: a null [QString] equals no literal. *)
Definition string_is (v : option QString) (lit : string) : bool :=
  match v with
  | Some s => String.eqb s lit
  | None => false
  end.

(** [QJsonObject::contains(key)]. *)
Fixpoint contains (o : QJsonObject) (key : QString) : bool :=
  match o with
  | [] => false
  | (k, _) :: o' => String.eqb k key || contains o' key
  end.

(** [QJsonObject::value(key)], which is also the const [operator[]]. *)
Fixpoint value (o : QJsonObject) (key : QString) : QJsonValue :=
  match o with
  | [] => JUndefined
  | (k, v) :: o' => if String.eqb k key then v else value o' key
  end.

(** [QJsonObject::remove(key)]. *)
Fixpoint remove (key : QString) (o : QJsonObject) : QJsonObject :=
  match o with
  | [] => []
  | (k, v) :: o' => if String.eqb k key then o' else (k, v) :: remove key o'
  end.

Fixpoint insert_sorted (key : QString) (v : QJsonValue) (o : QJsonObject) : QJsonObject :=
  match o with
  | [] => [(key, v)]
  | (k, w) :: o' =>
      match String.compare key k with
      | Lt => (key, v) :: (k, w) :: o'
      | Eq => (key, v) :: o'
      | Gt => (k, w) :: insert_sorted key v o'
      end
  end.

(** [QJsonObject::insert(key, value)]: replaces the member of that key;
    inserting [Undefined] removes it. *)
Definition insert (key : QString) (v : QJsonValue) (o : QJsonObject) : QJsonObject :=
  match v with
  | JUndefined => remove key o
  | _ => insert_sorted key v o
  end.

(** The non-const [operator[]]: a missing key is first inserted with a null
    value.  Returns the value referred to and the object after the call. *)
Definition ref (o : QJsonObject) (key : QString) : QJsonValue * QJsonObject :=
  if contains o key then (value o key, o)
  else (JNull, insert key JNull o).

End QJson.

(** ** Writing JSON: [QJsonDocument::toJson] *)

Definition dquote : ascii := Eval cbv in ascii_of_N 34.
Definition newline : ascii := Eval cbv in ascii_of_N 10.
Definition nl : string := String newline EmptyString.
Definition dq : string := String dquote EmptyString.

(** [QJsonDocument]: null, or holding an object or an array. *)
Inductive QJsonDocument : Type :=
| DocNull
| DocObject (o : QJsonObject)
| DocArray (a : list QJsonValue).

Inductive JsonFormat : Type := Indented | Compact.

Module QJsonWriter.

Definition hexdig (u : N) : ascii :=
  if (u <? 10)%N then ascii_of_N (48 + u) else ascii_of_N (97 + u - 10).

(** One character of [escapedString]: control characters, the double quote
    and the backslash are escaped, everything else is copied. *)
Definition escapedChar (c : ascii) : string :=
  let u := N_of_ascii c in
  if ((u <? 32) || (u =? 34) || (u =? 92))%N then
    String "\"
      (if (u =? 34)%N then dq
       else if (u =? 92)%N then "\"
       else if (u =? 8)%N then "b"
       else if (u =? 12)%N then "f"
       else if (u =? 10)%N then "n"
       else if (u =? 13)%N then "r"
       else if (u =? 9)%N then "t"
       else String "u" (String "0" (String "0"
              (String (hexdig (N.shiftr u 4)) (String (hexdig (N.land u 15)) EmptyString)))))
  else String c EmptyString.

Fixpoint escapedString (s : QString) : string :=
  match s with
  | EmptyString => EmptyString
  | String c s' => escapedChar c ++ escapedString s'
  end.

(** [QByteArray(n, ' ')]. *)
Fixpoint spaces (n : nat) : string :=
  match n with
  | O => EmptyString
  | S n' => String " " (spaces n')
  end.

Definition is_compact (f : JsonFormat) : bool :=
  match f with Compact => true | Indented => false end.

Definition decimal (z : Z) : string := NilZero.string_of_int (Z.to_int z).

(** Numbers are not written by this backend; an integer prints as its digits,
    other numbers in mantissa and exponent form. *)
Definition numberToJson (m e : Z) : string :=
  if (e =? 0)%Z then decimal m else decimal m ++ "e" ++ decimal e.

(** [valueToJson], with [objectContentToJson] and [arrayContentToJson] as its
    local loops. *)
Fixpoint valueToJson (f : JsonFormat) (indent : nat) (v : QJsonValue) {struct v} : string :=
  let compact := is_compact f in
  let inner := (indent + (if compact then 0 else 1))%nat in
  match v with
  | JBool b => if b then "true" else "false"
  | JDouble m e => numberToJson m e
  | JString s => dq ++ escapedString s ++ dq
  | JArray a =>
      (if compact then "[" else "[" ++ nl)
      ++ (fix arrayContentToJson (l : list QJsonValue) : string :=
            match l with
            | [] => EmptyString
            | x :: l' =>
                spaces (4 * inner) ++ valueToJson f inner x
                ++ match l' with
                   | [] => if compact then EmptyString else nl
                   | _ => (if compact then "," else "," ++ nl) ++ arrayContentToJson l'
                   end
            end) a
      ++ spaces (4 * indent) ++ "]"
  | JObject o =>
      (if compact then "{" else "{" ++ nl)
      ++ (fix objectContentToJson (l : list (QString * QJsonValue)) : string :=
            match l with
            | [] => EmptyString
            | (k, x) :: l' =>
                spaces (4 * inner) ++ dq ++ escapedString k
                ++ (if compact then dq ++ ":" else dq ++ ": ")
                ++ valueToJson f inner x
                ++ match l' with
                   | [] => if compact then EmptyString else nl
                   | _ => (if compact then "," else "," ++ nl) ++ objectContentToJson l'
                   end
            end) o
      ++ spaces (4 * indent) ++ "}"
  | JNull | JUndefined => "null"
  end.

(** [QJsonDocument::toJson(format)]: the root container followed, in the
    indented format, by a line break. *)
Definition toJsonFormat (f : JsonFormat) (d : QJsonDocument) : QByteArray :=
  match d with
  | DocNull => EmptyString
  | DocObject o => valueToJson f 0 (JObject o) ++ (if is_compact f then EmptyString else nl)
  | DocArray a => valueToJson f 0 (JArray a) ++ (if is_compact f then EmptyString else nl)
  end.

(** [QJsonDocument::toJson()]: the indented format is the default. *)
Definition toJson (d : QJsonDocument) : QByteArray := toJsonFormat Indented d.

End QJsonWriter.

(** [QJsonDocument::object()]: the empty object unless the document holds one. *)
Definition object (d : QJsonDocument) : QJsonObject :=
  match d with
  | DocObject o => o
  | _ => []
  end.

(** ** Reading JSON: [QJsonDocument::fromJson] *)

Module QJsonParser.

Definition is_space (c : ascii) : bool :=
  let u := N_of_ascii c in
  ((u =? 32) || (u =? 9) || (u =? 10) || (u =? 13))%N.

Fixpoint eatSpace (s : string) : string :=
  match s with
  | EmptyString => EmptyString
  | String c s' => if is_space c then eatSpace s' else s
  end.

(** The structural characters after which [nextToken] skips white space. *)
Definition is_structural (c : ascii) : bool :=
  Ascii.eqb c "[" || Ascii.eqb c "{" || Ascii.eqb c ":" || Ascii.eqb c ","
  || Ascii.eqb c "]" || Ascii.eqb c "}".

(** [nextToken]: the next structural character or opening quote, [None] for
    the end of the input and for any other character. *)
Definition nextToken (s : string) : option (ascii * string) :=
  match eatSpace s with
  | EmptyString => None
  | String c s' =>
      if is_structural c then Some (c, eatSpace s')
      else if Ascii.eqb c dquote then Some (c, s')
      else None
  end.

Definition hex_value (c : ascii) : option N :=
  let u := N_of_ascii c in
  if ((48 <=? u) && (u <=? 57))%N then Some (u - 48)%N
  else if ((97 <=? u) && (u <=? 102))%N then Some (u - 87)%N
  else if ((65 <=? u) && (u <=? 70))%N then Some (u - 55)%N
  else None.

Definition hex4 (a b c d : ascii) : option N :=
  match hex_value a, hex_value b, hex_value c, hex_value d with
  | Some x, Some y, Some z, Some w => Some (((x * 16 + y) * 16 + z) * 16 + w)%N
  | _, _, _, _ => None
  end.

(** The UTF-8 bytes of one UTF-16 code unit (a surrogate is kept as the three
    bytes of its own code). *)
Definition utf8 (u : N) : string :=
  if (u <? 128)%N then String (ascii_of_N u) EmptyString
  else if (u <? 2048)%N then
    String (ascii_of_N (192 + N.shiftr u 6))
      (String (ascii_of_N (128 + N.land u 63)) EmptyString)
  else
    String (ascii_of_N (224 + N.shiftr u 12))
      (String (ascii_of_N (128 + N.land (N.shiftr u 6) 63))
         (String (ascii_of_N (128 + N.land u 63)) EmptyString)).

(** [scanEscapeSequence] for the one-letter escapes; a character with no
    special meaning stands for itself. *)
Definition unescape (e : ascii) : ascii :=
  if Ascii.eqb e "b" then ascii_of_N 8
  else if Ascii.eqb e "f" then ascii_of_N 12
  else if Ascii.eqb e "n" then ascii_of_N 10
  else if Ascii.eqb e "r" then ascii_of_N 13
  else if Ascii.eqb e "t" then ascii_of_N 9
  else e.

Definition prepend (p : string) (r : option (QString * string)) : option (QString * string) :=
  match r with
  | Some (str, rest) => Some (p ++ str, rest)
  | None => None
  end.

(** [parseString], entered after the opening quote: the string and the input
    after its closing quote.  Bytes above 127 are copied as they are: the input
    is taken to be well-formed UTF-8, which Qt checks here. *)
Fixpoint parseString (s : string) : option (QString * string) :=
  match s with
  | EmptyString => None
  | String c s1 =>
      if Ascii.eqb c dquote then Some (EmptyString, s1)
      else if Ascii.eqb c "\" then
        match s1 with
        | EmptyString => None
        | String e s2 =>
            if Ascii.eqb e "u" then
              match s2 with
              | String h1 (String h2 (String h3 (String h4 s3))) =>
                  match hex4 h1 h2 h3 h4 with
                  | Some u => prepend (utf8 u) (parseString s3)
                  | None => None
                  end
              | _ => None
              end
            else prepend (String (unescape e) EmptyString) (parseString s2)
        end
      else prepend (String c EmptyString) (parseString s1)
  end.

Definition digit_value (c : ascii) : option Z :=
  let u := N_of_ascii c in
  if ((48 <=? u) && (u <=? 57))%N then Some (Z.of_N u - 48)%Z else None.

(** Reads a run of digits onto [acc]; also returns how many were read. *)
Fixpoint scanDigits (s : string) (acc : Z) (n : Z) : Z * Z * string :=
  match s with
  | EmptyString => (acc, n, s)
  | String c s' =>
      match digit_value c with
      | Some d => scanDigits s' (acc * 10 + d)%Z (n + 1)%Z
      | None => (acc, n, s)
      end
  end.

(** The parts of a number: an optional minus sign, the integer part (a single
    zero or a run of digits), the fraction, the exponent.  Each returns what
    it read and the input after it. *)
Definition scanMinus (s : string) : bool * string :=
  match s with
  | String c r => if Ascii.eqb c "-" then (true, r) else (false, s)
  | EmptyString => (false, s)
  end.

Definition scanInt (s : string) : Z * Z * string :=
  match s with
  | String c r => if Ascii.eqb c "0" then (0%Z, 1%Z, r) else scanDigits s 0 0
  | EmptyString => (0%Z, 0%Z, s)
  end.

Definition scanFrac (i : Z) (s : string) : Z * Z * string :=
  match s with
  | String c r => if Ascii.eqb c "." then scanDigits r i 0 else (i, 0%Z, s)
  | EmptyString => (i, 0%Z, s)
  end.

Definition scanExp (s : string) : Z * Z * bool * string :=
  match s with
  | String c r =>
      if Ascii.eqb c "e" || Ascii.eqb c "E" then
        let '(xneg, r1) :=
          match r with
          | String d r' =>
              if Ascii.eqb d "-" then (true, r')
              else if Ascii.eqb d "+" then (false, r') else (false, r)
          | EmptyString => (false, r)
          end in
        let '(x, nx, r2) := scanDigits r1 0 0 in
        ((if xneg then - x else x)%Z, nx, true, r2)
      else (0%Z, 0%Z, false, s)
  | EmptyString => (0%Z, 0%Z, false, s)
  end.

(** [parseNumber].  A number that runs to the end of the input is an error,
    as is one without digits. *)
Definition parseNumber (s : string) : option (QJsonValue * string) :=
  let '(neg, s1) := scanMinus s in
  let '(i, ni, s2) := scanInt s1 in
  let '(m, nf, s3) := scanFrac i s2 in
  let '(x, nx, has_exp, s4) := scanExp s3 in
  match s4 with
  | EmptyString => None
  | _ =>
      if ((ni + nf =? 0) || (has_exp && (nx =? 0)))%Z then None
      else Some (JDouble (if neg then - m else m) (x - nf), s4)
  end.

(** The rest of a literal ([ull], [rue], [alse]) after its first letter. *)
Definition literal (rest : string) (v : QJsonValue) (s : string) : option (QJsonValue * string) :=
  if String.prefix rest s
  then Some (v, String.substring (String.length rest) (String.length s - String.length rest) s)
  else None.

Definition nestingLimit : N := 1024.

(** [parseValue], with [parseObject] and [parseArray] unfolded into the loops
    over their members and elements.  [fuel] bounds the chain of calls (see
    [fuel_for]); [depth] is the parser's [nestingLevel]. *)
Fixpoint parseValue (fuel : nat) (depth : N) (s : string) {struct fuel}
  : option (QJsonValue * string) :=
  match fuel with
  | O => None
  | S fuel' =>
      match s with
      | EmptyString => None
      | String c s' =>
          if Ascii.eqb c "n" then literal "ull" JNull s'
          else if Ascii.eqb c "t" then literal "rue" (JBool true) s'
          else if Ascii.eqb c "f" then literal "alse" (JBool false) s'
          else if Ascii.eqb c dquote then
            match parseString s' with
            | Some (str, rest) => Some (JString str, rest)
            | None => None
            end
          else if Ascii.eqb c "[" then
            match parseArray fuel' depth s' with
            | Some (a, rest) => Some (JArray a, rest)
            | None => None
            end
          else if Ascii.eqb c "{" then
            match parseObject fuel' depth s' with
            | Some (o, rest) => Some (JObject o, rest)
            | None => None
            end
          else if Ascii.eqb c "]" then None
          else parseNumber s
      end
  end

with parseObject (fuel : nat) (depth : N) (s : string) {struct fuel}
  : option (QJsonObject * string) :=
  match fuel with
  | O => None
  | S fuel' =>
      if (nestingLimit <? depth + 1)%N then None
      else
        match nextToken s with
        | Some (t, s1) =>
            if Ascii.eqb t dquote then parseMembers fuel' (depth + 1)%N s1 []
            else if Ascii.eqb t "}" then Some ([], s1)
            else None
        | None => None
        end
  end

(** One turn of the member loop, entered after the opening quote of a key. *)
with parseMembers (fuel : nat) (depth : N) (s : string) (acc : QJsonObject) {struct fuel}
  : option (QJsonObject * string) :=
  match fuel with
  | O => None
  | S fuel' =>
      match parseString s with
      | None => None
      | Some (key, s1) =>
          match nextToken s1 with
          | Some (t, s2) =>
              if negb (Ascii.eqb t ":") then None
              else
                match eatSpace s2 with
                | EmptyString => None
                | s3 =>
                    match parseValue fuel' depth s3 with
                    | None => None
                    | Some (v, s4) =>
                        let acc' := QJson.insert key v acc in
                        match nextToken s4 with
                        | Some (t', s5) =>
                            if Ascii.eqb t' "," then
                              match nextToken s5 with
                              | Some (t'', s6) =>
                                  if Ascii.eqb t'' dquote
                                  then parseMembers fuel' depth s6 acc'
                                  else None
                              | None => None
                              end
                            else if Ascii.eqb t' "}" then Some (acc', s5)
                            else None
                        | None => None
                        end
                    end
                end
          | None => None
          end
      end
  end

with parseArray (fuel : nat) (depth : N) (s : string) {struct fuel}
  : option (list QJsonValue * string) :=
  match fuel with
  | O => None
  | S fuel' =>
      if (nestingLimit <? depth + 1)%N then None
      else
        match eatSpace s with
        | EmptyString => None
        | String c r =>
            if Ascii.eqb c "]" then Some ([], eatSpace r)
            else parseElements fuel' (depth + 1)%N (String c r) []
        end
  end

(** One turn of the element loop. *)
with parseElements (fuel : nat) (depth : N) (s : string) (acc : list QJsonValue) {struct fuel}
  : option (list QJsonValue * string) :=
  match fuel with
  | O => None
  | S fuel' =>
      match eatSpace s with
      | EmptyString => None
      | s1 =>
          match parseValue fuel' depth s1 with
          | None => None
          | Some (v, s2) =>
              match nextToken s2 with
              | Some (t, s3) =>
                  if Ascii.eqb t "]" then Some ((acc ++ [v])%list, s3)
                  else if Ascii.eqb t "," then parseElements fuel' depth s3 (acc ++ [v])%list
                  else None
              | None => None
              end
          end
      end
  end.

(** A leading byte order mark is skipped. *)
Definition eatBOM (s : string) : string :=
  match s with
  | String a (String b (String c r)) =>
      if ((N_of_ascii a =? 239) && (N_of_ascii b =? 187) && (N_of_ascii c =? 191))%N
      then r else s
  | _ => s
  end.

(** Fuel for a text: each call takes one unit, and of three calls in a row at
    least one consumes a character, so no chain of calls is longer than this. *)
Definition fuel_for (s : string) : nat := 3 * String.length s + 3.

(** [QJsonDocument::fromJson(json)]: the root must be an object or an array,
    and nothing but white space may follow it; the null document otherwise. *)
Definition fromJson (json : QByteArray) : QJsonDocument :=
  let s := eatBOM json in
  match nextToken s with
  | Some (t, s1) =>
      if Ascii.eqb t "[" then
        match parseArray (fuel_for s) 0 s1 with
        | Some (a, rest) =>
            match eatSpace rest with
            | EmptyString => DocArray a
            | _ => DocNull
            end
        | None => DocNull
        end
      else if Ascii.eqb t "{" then
        match parseObject (fuel_for s) 0 s1 with
        | Some (o, rest) =>
            match eatSpace rest with
            | EmptyString => DocObject o
            | _ => DocNull
            end
        | None => DocNull
        end
      else DocNull
  | None => DocNull
  end.

End QJsonParser.

(** ** The data of the backend *)

(** Modelled from the spec: the enumeration [VirtualMachine::State] is declared
    in [virtual_machine.h], which is not among the sources; these are the
    states the spec lists. *)
Inductive State : Type :=
| off | starting | running | delayed_shutdown
| restarting | suspending | suspended | unknown.

Scheme Equality for State.

Inductive Level : Type := error | warning | info | debug.

(** [QProcess::ProcessState], [QProcess::ProcessError], [QProcess::ExitStatus]. *)
Inductive ProcessState : Type := NotRunning | Starting | Running.
Inductive ProcessError : Type :=
| FailedToStart | Crashed | Timedout | WriteError | ReadError | UnknownError.
Inductive ExitStatus : Type := NormalExit | CrashExit.

(** The fields of [VirtualMachineDescription] the backend reads. *)
Record VirtualMachineDescription : Type := {
  desc_vm_name : string;
  image_path : string;
  cloud_init_iso : string;
  desc_mac_addr : string;
  ssh_username : string
}.

(** What the process factory hands back for a process specification. *)
Record Process : Type := {
  program : string;
  arguments : list string;
  working_directory : string
}.

(** Everything the backend does to its collaborators, in the order it does
    it: the log, the status monitor, the child process, the condition variable. *)
Inductive Effect : Type :=
| log (level : Level) (category : string) (message : string)
| printf (text : string)
| persist_state_for (name : string) (s : State)
| update_metadata_for (name : string) (metadata : QJsonObject)
| monitor_on_resume
| monitor_on_shutdown
| monitor_on_suspend
| monitor_on_restart (name : string)
| process_start (extra_args : list string)
| process_write (data : QByteArray)
| process_kill
| process_wait_for_finished
| state_wait_notify_all.

(** The collaborators whose answers the backend consumes: the host's commands
    and files, the monitor's metadata store, the process factory and the
    outcome of spawning the child. *)
Record Host : Type := {
  run_cmd_for_output : string -> list string -> string;
  file_exists : string -> bool;
  dump_vmstate : option QByteArray;
  retrieve_metadata_for : string -> QJsonObject;
  create_process : VirtualMachineDescription -> Z -> string -> string -> Process;
  wait_for_started : bool
}.

(** The members of [QemuVirtualMachine] (with those of its base class). *)
Record QemuVirtualMachine : Type := {
  state : State;
  vm_name : string;
  vm_desc : VirtualMachineDescription;
  tap_device_name : string;
  mac_addr : string;
  username : string;
  cloud_init_path : QString;
  ip : option string;
  saved_error_msg : string;
  update_shutdown_status : bool;
  delete_memory_snapshot : bool;
  vm_process : option Process
}.

Definition set_state (s : State) (vm : QemuVirtualMachine) : QemuVirtualMachine :=
  {| state := s; vm_name := vm_name vm; vm_desc := vm_desc vm;
     tap_device_name := tap_device_name vm; mac_addr := mac_addr vm;
     username := username vm; cloud_init_path := cloud_init_path vm; ip := ip vm;
     saved_error_msg := saved_error_msg vm;
     update_shutdown_status := update_shutdown_status vm;
     delete_memory_snapshot := delete_memory_snapshot vm; vm_process := vm_process vm |}.

Definition set_ip (a : option string) (vm : QemuVirtualMachine) : QemuVirtualMachine :=
  {| state := state vm; vm_name := vm_name vm; vm_desc := vm_desc vm;
     tap_device_name := tap_device_name vm; mac_addr := mac_addr vm;
     username := username vm; cloud_init_path := cloud_init_path vm; ip := a;
     saved_error_msg := saved_error_msg vm;
     update_shutdown_status := update_shutdown_status vm;
     delete_memory_snapshot := delete_memory_snapshot vm; vm_process := vm_process vm |}.

Definition set_saved_error_msg (m : string) (vm : QemuVirtualMachine) : QemuVirtualMachine :=
  {| state := state vm; vm_name := vm_name vm; vm_desc := vm_desc vm;
     tap_device_name := tap_device_name vm; mac_addr := mac_addr vm;
     username := username vm; cloud_init_path := cloud_init_path vm; ip := ip vm;
     saved_error_msg := m;
     update_shutdown_status := update_shutdown_status vm;
     delete_memory_snapshot := delete_memory_snapshot vm; vm_process := vm_process vm |}.

Definition set_update_shutdown_status (b : bool) (vm : QemuVirtualMachine) : QemuVirtualMachine :=
  {| state := state vm; vm_name := vm_name vm; vm_desc := vm_desc vm;
     tap_device_name := tap_device_name vm; mac_addr := mac_addr vm;
     username := username vm; cloud_init_path := cloud_init_path vm; ip := ip vm;
     saved_error_msg := saved_error_msg vm;
     update_shutdown_status := b;
     delete_memory_snapshot := delete_memory_snapshot vm; vm_process := vm_process vm |}.

Definition set_delete_memory_snapshot (b : bool) (vm : QemuVirtualMachine) : QemuVirtualMachine :=
  {| state := state vm; vm_name := vm_name vm; vm_desc := vm_desc vm;
     tap_device_name := tap_device_name vm; mac_addr := mac_addr vm;
     username := username vm; cloud_init_path := cloud_init_path vm; ip := ip vm;
     saved_error_msg := saved_error_msg vm;
     update_shutdown_status := update_shutdown_status vm;
     delete_memory_snapshot := b; vm_process := vm_process vm |}.

Definition set_vm_process (p : option Process) (vm : QemuVirtualMachine) : QemuVirtualMachine :=
  {| state := state vm; vm_name := vm_name vm; vm_desc := vm_desc vm;
     tap_device_name := tap_device_name vm; mac_addr := mac_addr vm;
     username := username vm; cloud_init_path := cloud_init_path vm; ip := ip vm;
     saved_error_msg := saved_error_msg vm;
     update_shutdown_status := update_shutdown_status vm;
     delete_memory_snapshot := delete_memory_snapshot vm; vm_process := p |}.

(** ** Member functions as computations *)

(** What a C++ call can end with besides a value.  [null_pointer] stands for a
    call through [vm_process] while no process has been created. *)
Inductive exception : Type :=
| runtime_error (what : string)
| StartException (name : string) (what : string)
| null_pointer.

Inductive result (A : Type) : Type :=
| returns (a : A)
| throws (e : exception).
Arguments returns {A} a.
Arguments throws {A} e.

(** A member function reads and writes the object and acts on the
    collaborators; what it wrote before throwing stays written. *)
Definition M (A : Type) : Type :=
  QemuVirtualMachine -> result A * QemuVirtualMachine * list Effect.

Definition ret {A} (a : A) : M A := fun vm => (returns a, vm, []).

Definition bind {A B} (m : M A) (k : A -> M B) : M B :=
  fun vm =>
    match m vm with
    | (returns a, vm1, fx1) =>
        match k a vm1 with
        | (r, vm2, fx2) => (r, vm2, (fx1 ++ fx2)%list)
        end
    | (throws e, vm1, fx1) => (throws e, vm1, fx1)
    end.

Definition throw {A} (e : exception) : M A := fun vm => (throws e, vm, []).
Definition emit (x : Effect) : M unit := fun vm => (returns tt, vm, [x]).
Definition read {A} (field : QemuVirtualMachine -> A) : M A := fun vm => (returns (field vm), vm, []).
Definition write (update : QemuVirtualMachine -> QemuVirtualMachine) : M unit :=
  fun vm => (returns tt, update vm, []).
Definition when (b : bool) (m : M unit) : M unit := if b then m else ret tt.

Declare Scope cpp_scope.
Delimit Scope cpp_scope with cpp.
Notation "x <- m ;; k" := (bind m (fun x => k))
  (at level 61, m at next level, right associativity) : cpp_scope.
Notation "m ;; k" := (bind m (fun _ => k))
  (at level 61, right associativity) : cpp_scope.
Local Open Scope cpp_scope.

Definition value_of {A} (r : result A * QemuVirtualMachine * list Effect) : result A :=
  fst (fst r).
Definition object_of {A} (r : result A * QemuVirtualMachine * list Effect) : QemuVirtualMachine :=
  snd (fst r).
Definition effects_of {A} (r : result A * QemuVirtualMachine * list Effect) : list Effect :=
  snd r.

(** [fmt::format]: each [{}] is replaced by the next argument. *)
Fixpoint format (fmt : string) (args : list string) : string :=
  match fmt with
  | EmptyString => EmptyString
  | String c rest =>
      match rest with
      | String d rest' =>
          if Ascii.eqb c "{" && Ascii.eqb d "}" then
            match args with
            | a :: args' => a ++ format rest' args'
            | [] => format rest' []
            end
          else String c (format rest args)
      | EmptyString => String c EmptyString
      end
  end.

(** [mpl::log(level, vm_name, message)]. *)
Definition mpl_log (level : Level) (message : string) : M unit :=
  name <- read vm_name ;; emit (log level name message).

(** A call through the [vm_process] pointer. *)
Definition with_process {A} (call : Process -> M A) : M A :=
  p <- read vm_process ;;
  match p with
  | Some pr => call pr
  | None => throw null_pointer
  end.

Definition process_do (x : Effect) : M unit := with_process (fun _ => emit x).

(** ** The helpers of the anonymous namespace *)

Definition latest_vm_command_version : Z := 1.
Definition suspend_tag : string := "suspend".
Definition default_machine_type : string := "pc-i440fx-xenial".
Definition vm_command_version_key : string := "vm_command_version".
Definition machine_type_key : string := "machine_type".

Definition get_vm_command_version (metadata : QJsonObject) : Z :=
  if QJson.contains metadata vm_command_version_key then
    QJson.toInt (QJson.value metadata vm_command_version_key)
  else if QJson.contains metadata "use_cdrom"
          && QJson.toBool (QJson.value metadata "use_cdrom") then 1%Z
  else 0%Z.

Definition qmp_execute_json (cmd : QString) : QByteArray :=
  let qmp := QJson.insert "execute" (JString cmd) [] in
  QJsonWriter.toJson (DocObject qmp).

Definition hmc_to_qmp_json (command_line : QString) : QByteArray :=
  let qmp := object (QJsonParser.fromJson (qmp_execute_json "human-monitor-command")) in
  let cmd_line := QJson.insert "command-line" (JString command_line) [] in
  let qmp := QJson.insert "arguments" (JObject cmd_line) qmp in
  QJsonWriter.toJson (DocObject qmp).

(** The loop over the lines returns at the first line that has the tag. *)
Definition instance_image_has_snapshot (host : Host) (image : string) : bool :=
  let output :=
    Qt.split newline (run_cmd_for_output host "qemu-img" ["snapshot"; "-l"; image]) in
  existsb (Qt.contains suspend_tag) output.

(** [dump_vmstate host] is what [qemu-system-<arch> -nographic -dump-vmstate]
    left in the temporary file, [None] when that file could not be opened.
    The result is a [QString], null ([None]) when no name was found. *)
Definition get_qemu_machine_type (host : Host) : option QString :=
  match dump_vmstate host with
  | None => None
  | Some dumped =>
      let vmstate := object (QJsonParser.fromJson dumped) in
      let machine := QJson.toObject (fst (QJson.ref vmstate "vmschkmachine")) in
      QJson.toString (fst (QJson.ref machine "Name"))
  end.

(** [QJsonValue(QString)]: a string value, empty for the null string. *)
Definition QJsonValue_of_QString (s : option QString) : QJsonValue :=
  match s with
  | Some str => JString str
  | None => JString EmptyString
  end.

Definition generate_metadata (host : Host) : QJsonObject :=
  let metadata := QJson.insert machine_type_key
                    (QJsonValue_of_QString (get_qemu_machine_type host)) [] in
  QJson.insert vm_command_version_key (JDouble latest_vm_command_version 0) metadata.

(** ** Construction *)

(** Modelled from the spec: the initial values of the members that the
    constructor's initialiser list does not name come from
    [qemu_virtual_machine.h], which is not among the sources.  The spec has no
    cached address at first, [update_shutdown_status] true until the controller
    ends the child itself, [delete_memory_snapshot] false until a start resumes
    from a snapshot, and the cloud-init path of the descriptor. *)
Definition initial_members (st : State) (desc : VirtualMachineDescription) (tap : string)
  : QemuVirtualMachine :=
  {| state := st; vm_name := desc_vm_name desc; vm_desc := desc;
     tap_device_name := tap; mac_addr := desc_mac_addr desc;
     username := ssh_username desc; cloud_init_path := cloud_init_iso desc;
     ip := None; saved_error_msg := EmptyString;
     update_shutdown_status := true; delete_memory_snapshot := false;
     vm_process := None |}.

(** The constructor: the base class is initialised with the state read off
    the image's snapshots, then the two files are checked. *)
Definition QemuVirtualMachine_ctor (host : Host) (desc : VirtualMachineDescription)
    (tap : string) : result QemuVirtualMachine :=
  let st := if instance_image_has_snapshot host (image_path desc) then suspended else off in
  let vm := initial_members st desc tap in
  if negb (file_exists host (image_path desc)) || negb (file_exists host (cloud_init_iso desc))
  then throws (runtime_error "cannot start VM without an image")
  else returns vm.

(** ** Operations *)

Definition update_state : M unit :=
  name <- read vm_name ;; st <- read state ;; emit (persist_state_for name st).

(** The resume-only part of [start]: the extra arguments and the command
    version read from the metadata. *)
Definition resume_arguments (host : Host) : M (list string * Z) :=
  mpl_log info (format "Resuming from a suspended state" []) ;;
  name <- read vm_name ;;
  let metadata := retrieve_metadata_for host name in
  let vm_command_version := get_vm_command_version metadata in
  let '(machine_value, metadata) := QJson.ref metadata machine_type_key in
  machine_type <-
    match QJson.toString machine_value with
    | None =>
        mpl_log info (format "Cannot determine QEMU machine type. Defaulting to '{}'."
                        [default_machine_type]) ;;
        ret default_machine_type
    | Some mt => ret mt
    end ;;
  mpl_log info (format "Resuming from a suspended state" []) ;;
  cloud_init <- read cloud_init_path ;;
  let extra_args := ["-loadvm"; suspend_tag; "-machine"; machine_type] in
  let extra_args :=
    if QJson.toBool (fst (QJson.ref metadata "use_cdrom"))
    then (extra_args ++ ["-cdrom"; cloud_init])%list
    else (extra_args ++
          ["-drive";
           Qt.arg "file=%1,if=virtio,format=raw,snapshot=off,read-only" cloud_init])%list in
  write (set_update_shutdown_status true) ;;
  write (set_delete_memory_snapshot true) ;;
  ret (extra_args, vm_command_version).

Definition start (host : Host) : M unit :=
  st <- read state ;;
  if State_beq st running then ret tt
  else if State_beq st suspending then
    throw (runtime_error "cannot start the instance while suspending")
  else
    args <-
      (if State_beq st suspended then resume_arguments host
       else
         name <- read vm_name ;;
         emit (update_metadata_for name (generate_metadata host)) ;;
         ret ([], latest_vm_command_version)) ;;
    let '(extra_args, vm_command_version) := args in
    desc <- read vm_desc ;; tap <- read tap_device_name ;; mac <- read mac_addr ;;
    let process := create_process host desc vm_command_version tap mac in
    write (set_vm_process (Some process)) ;;
    mpl_log debug (format "process working dir '{}'" [working_directory process]) ;;
    mpl_log info (format "process program '{}'" [program process]) ;;
    mpl_log info (format "process arguments '{}'" [Qt.join ", " (arguments process)]) ;;
    process_do (process_start extra_args) ;;
    if negb (wait_for_started host) then
      throw (runtime_error "failed to start qemu instance")
    else process_do (process_write (qmp_execute_json "qmp_capabilities")).

(** [is_running] is the answer of [vm_process->running()], asked only where
    the source asks it. *)
Definition shutdown (is_running : bool) : M unit :=
  st <- read state ;;
  if State_beq st suspended then
    mpl_log info (format "Ignoring shutdown issued while suspended" [])
  else
    powerdown <-
      (if State_beq st running || State_beq st delayed_shutdown || State_beq st unknown
       then with_process (fun _ => ret is_running)
       else ret false) ;;
    if (powerdown : bool) then
      process_do (process_write (qmp_execute_json "system_powerdown")) ;;
      process_do process_wait_for_finished
    else
      when (State_beq st starting) (write (set_update_shutdown_status false)) ;;
      process_do process_kill ;;
      process_do process_wait_for_finished.

Definition stop (is_running : bool) : M unit := shutdown is_running.

Definition suspend (is_running : bool) : M unit :=
  st <- read state ;;
  saving <-
    (if State_beq st running || State_beq st delayed_shutdown
     then with_process (fun _ => ret is_running)
     else ret false) ;;
  if (saving : bool) then
    process_do (process_write (hmc_to_qmp_json ("savevm " ++ suspend_tag))) ;;
    controlled <- read update_shutdown_status ;;
    when controlled
      (write (set_state suspending) ;;
       update_state ;;
       write (set_update_shutdown_status false) ;;
       process_do process_wait_for_finished)
  else if State_beq st off || State_beq st suspended then
    mpl_log info (format "Ignoring suspend issued while stopped/suspended" []) ;;
    emit monitor_on_suspend
  else ret tt.

Definition current_state : M State := read state.

Definition ssh_port : M Z := ret 22%Z.

Definition on_started : M unit :=
  write (set_state starting) ;; update_state ;; emit monitor_on_resume.

Definition on_error : M unit :=
  write (set_state off) ;; update_state.

(** How far a handler got: [on_shutdown] can park its thread on [state_wait]. *)
Inductive Progress : Type := completed | waiting_for_off.

(** The statements of [on_shutdown] that follow the branch on the state. *)
Definition on_shutdown_rest : M Progress :=
  write (set_ip None) ;; update_state ;; emit monitor_on_shutdown ;; ret completed.

(** [on_shutdown] up to the point where it returns or where
    [state_wait.wait(lock, state == off)] finds its predicate false and parks
    the thread (the state is [starting] there, so the first test fails). *)
Definition on_shutdown : M Progress :=
  st <- read state ;;
  if State_beq st starting then
    emit (printf ("EH??" ++ nl)) ;;
    name <- read vm_name ;;
    write (set_saved_error_msg (format "{}: shutdown called while starting" [name])) ;;
    ret waiting_for_off
  else
    write (set_state off) ;; on_shutdown_rest.

(** A wake-up of the thread parked in [on_shutdown]: it tests the predicate
    again and goes on only when the state is [off]. *)
Definition on_shutdown_woken : M Progress :=
  st <- read state ;;
  if State_beq st off then on_shutdown_rest else ret waiting_for_off.

Definition on_suspend : M unit :=
  write (set_state suspended) ;; emit monitor_on_suspend.

Definition on_restart : M unit :=
  write (set_state restarting) ;;
  update_state ;;
  write (set_ip None) ;;
  name <- read vm_name ;;
  emit (monitor_on_restart name).

Definition ensure_vm_is_running (is_running : bool) : M unit :=
  alive <- with_process (fun _ => ret is_running) ;;
  if negb alive then
    write (set_state off) ;;
    emit state_wait_notify_all ;;
    name <- read vm_name ;; msg <- read saved_error_msg ;;
    throw (StartException name msg)
  else ret tt.

Definition get_ssh_username : M string := read username.

(** [lease] is what [dnsmasq_server->get_ip_for(mac_addr)] answers when asked. *)
Definition ipv4 (lease : option string) : M string :=
  cached <- read ip ;;
  match cached with
  | Some a => ret a
  | None =>
      match lease with
      | Some a => write (set_ip (Some a)) ;; ret a
      | None => ret "UNKNOWN"
      end
  end.

Definition ipv6 : M string := ret EmptyString.

(** ** The handlers attached by [create_connections] *)

Definition qenum_ProcessState (s : ProcessState) : string :=
  match s with
  | NotRunning => "NotRunning" | Starting => "Starting" | Running => "Running"
  end.

Definition qenum_ProcessError (e : ProcessError) : string :=
  match e with
  | FailedToStart => "FailedToStart" | Crashed => "Crashed" | Timedout => "Timedout"
  | WriteError => "WriteError" | ReadError => "ReadError" | UnknownError => "UnknownError"
  end.

Definition qenum_ExitStatus (s : ExitStatus) : string :=
  match s with
  | NormalExit => "NormalExit" | CrashExit => "CrashExit"
  end.

(** [QByteArray::data()] read as a C string: the bytes before the first zero. *)
Fixpoint c_str (s : QByteArray) : string :=
  match s with
  | EmptyString => EmptyString
  | String c s' => if Ascii.eqb c Ascii.zero then EmptyString else String c (c_str s')
  end.

Definition started_handler : M unit :=
  mpl_log info "process started" ;; on_started.

(** [qmp_output] is what [vm_process->read_all_standard_output()] returns. *)
Definition ready_read_standard_output_handler (qmp_output : QByteArray) : M unit :=
  mpl_log debug (format "QMP: {}" [qmp_output]) ;;
  let qmp_object :=
    object (QJsonParser.fromJson (Qt.first (Qt.split newline qmp_output))) in
  let event := fst (QJson.ref qmp_object "event") in
  if negb (QJson.isNull event) then
    st <- read state ;;
    if QJson.string_is (QJson.toString event) "RESET" && negb (State_beq st restarting) then
      mpl_log info "VM restarting" ;; on_restart
    else if QJson.string_is (QJson.toString event) "POWERDOWN" then
      mpl_log info "VM powering down"
    else if QJson.string_is (QJson.toString event) "SHUTDOWN" then
      mpl_log info "VM shut down"
    else if QJson.string_is (QJson.toString event) "STOP" then
      mpl_log info "VM suspending"
    else if QJson.string_is (QJson.toString event) "RESUME" then
      mpl_log info "VM suspended" ;;
      when (State_beq st suspending || State_beq st running)
        (process_do process_kill ;; on_suspend)
    else ret tt
  else ret tt.

(** [err] is what [vm_process->read_all_standard_error()] returns. *)
Definition ready_read_standard_error_handler (err : QByteArray) : M unit :=
  write (set_saved_error_msg (c_str err)) ;;
  msg <- read saved_error_msg ;;
  mpl_log warning msg.

Definition state_changed_handler (newState : ProcessState) : M unit :=
  mpl_log info (format "process state changed to {}" [qenum_ProcessState newState]).

Definition error_occurred_handler (err : ProcessError) : M unit :=
  controlled <- read update_shutdown_status ;;
  when controlled
    (mpl_log error (format "process error occurred {}" [qenum_ProcessError err]) ;;
     on_error).

Definition finished_handler (exitCode : Z) (exitStatus : ExitStatus) : M Progress :=
  mpl_log info (format "process finished with exit code {} ({})"
                  [QJsonWriter.decimal exitCode; qenum_ExitStatus exitStatus]) ;;
  controlled <- read update_shutdown_status ;;
  st <- read state ;;
  if controlled || State_beq st starting then on_shutdown else ret completed.

(** ** The decoder as the specification words it *)

(** The typed events of the specification's QMP codec. *)
Inductive QmpEvent : Type := RESET | POWERDOWN | SHUTDOWN | STOP | RESUME.

(** The typed event of one decoded object: its [event] field, when it has one
    and the value is one of the five names. *)
Definition typed_event (o : QJsonObject) : option QmpEvent :=
  if QJson.contains o "event" then
    match QJson.value o "event" with
    | JString name =>
        if String.eqb name "RESET" then Some RESET
        else if String.eqb name "POWERDOWN" then Some POWERDOWN
        else if String.eqb name "SHUTDOWN" then Some SHUTDOWN
        else if String.eqb name "STOP" then Some STOP
        else if String.eqb name "RESUME" then Some RESUME
        else None
    | _ => None
    end
  else None.

(** The controller's reaction to a typed event. *)
Definition handle_event (e : QmpEvent) : M unit :=
  st <- read state ;;
  match e with
  | RESET =>
      when (negb (State_beq st restarting)) (mpl_log info "VM restarting" ;; on_restart)
  | POWERDOWN => mpl_log info "VM powering down"
  | SHUTDOWN => mpl_log info "VM shut down"
  | STOP => mpl_log info "VM suspending"
  | RESUME =>
      mpl_log info "VM suspended" ;;
      when (State_beq st suspending || State_beq st running)
        (process_do process_kill ;; on_suspend)
  end.

(** One line of the child's output: its event, if any, is handled. *)
Definition decode_line (line : QByteArray) : M unit :=
  match typed_event (object (QJsonParser.fromJson line)) with
  | Some e => handle_event e
  | None => ret tt
  end.

(** The decoder of the specification: every newline-delimited object of the
    chunk is decoded, in order. *)
Fixpoint decode_lines (lines : list QByteArray) : M unit :=
  match lines with
  | [] => ret tt
  | line :: rest => decode_line line ;; decode_lines rest
  end.

Definition decode_each_object (chunk : QByteArray) : M unit :=
  mpl_log debug (format "QMP: {}" [chunk]) ;;
  decode_lines (Qt.split newline chunk).

(** What the source decodes: the first line of the chunk only. *)
Definition decode_first_object (chunk : QByteArray) : M unit :=
  mpl_log debug (format "QMP: {}" [chunk]) ;;
  decode_line (Qt.first (Qt.split newline chunk)).

(** [needle] occurs in [s]. *)
Definition occurs_in (needle s : string) : Prop :=
  exists before after, s = before ++ needle ++ after.

(** A byte array is a single line when no line break occurs in it, save for
    one that ends it. *)
Fixpoint single_line (s : QByteArray) : bool :=
  match s with
  | EmptyString => true
  | String c s' =>
      if Ascii.eqb c newline then
        match s' with EmptyString => true | _ => false end
      else single_line s'
  end.

(** ** Notions used to state the properties *)

(** Some line of what [qemu-img snapshot -l <image>] printed contains the tag
    [suspend]. *)
Definition listing_has_suspend_line (host : Host) (image : string) : Prop :=
  exists line,
    In line (Qt.split newline (run_cmd_for_output host "qemu-img" ["snapshot"; "-l"; image]))
    /\ occurs_in "suspend" line.

(** Every way the object is entered: the public operations, the members the
    retry loops call, and the handlers of the child's signals (with the
    wake-up of a handler parked in [on_shutdown]). *)
Inductive Call : Type :=
| call_start (host : Host)
| call_stop (is_running : bool)
| call_shutdown (is_running : bool)
| call_suspend (is_running : bool)
| call_current_state
| call_ipv4 (lease : option string)
| call_ensure_vm_is_running (is_running : bool)
| signal_started
| signal_ready_read_standard_output (qmp_output : QByteArray)
| signal_ready_read_standard_error (err : QByteArray)
| signal_state_changed (newState : ProcessState)
| signal_error_occurred (err : ProcessError)
| signal_finished (exitCode : Z) (exitStatus : ExitStatus)
| wake_on_shutdown.

(** The object and the effects a call leaves behind. *)
Definition perform (c : Call) (vm : QemuVirtualMachine) : QemuVirtualMachine * list Effect :=
  match c with
  | call_start host => let r := start host vm in (object_of r, effects_of r)
  | call_stop b => let r := stop b vm in (object_of r, effects_of r)
  | call_shutdown b => let r := shutdown b vm in (object_of r, effects_of r)
  | call_suspend b => let r := suspend b vm in (object_of r, effects_of r)
  | call_current_state => let r := current_state vm in (object_of r, effects_of r)
  | call_ipv4 lease => let r := ipv4 lease vm in (object_of r, effects_of r)
  | call_ensure_vm_is_running b =>
      let r := ensure_vm_is_running b vm in (object_of r, effects_of r)
  | signal_started => let r := started_handler vm in (object_of r, effects_of r)
  | signal_ready_read_standard_output chunk =>
      let r := ready_read_standard_output_handler chunk vm in (object_of r, effects_of r)
  | signal_ready_read_standard_error err =>
      let r := ready_read_standard_error_handler err vm in (object_of r, effects_of r)
  | signal_state_changed s =>
      let r := state_changed_handler s vm in (object_of r, effects_of r)
  | signal_error_occurred e =>
      let r := error_occurred_handler e vm in (object_of r, effects_of r)
  | signal_finished code status =>
      let r := finished_handler code status vm in (object_of r, effects_of r)
  | wake_on_shutdown => let r := on_shutdown_woken vm in (object_of r, effects_of r)
  end.

(** A history of calls, oldest first. *)
Fixpoint perform_all (calls : list Call) (vm : QemuVirtualMachine)
  : QemuVirtualMachine * list Effect :=
  match calls with
  | [] => (vm, [])
  | c :: rest =>
      let '(vm1, fx1) := perform c vm in
      let '(vm2, fx2) := perform_all rest vm1 in
      (vm2, (fx1 ++ fx2)%list)
  end.

(** The call moves the object into [restarting] or [off] from another state. *)
Definition enters_restarting_or_off (c : Call) (vm : QemuVirtualMachine) : Prop :=
  let vm' := fst (perform c vm) in
  (state vm' = restarting \/ state vm' = off) /\ state vm <> state vm'.

(** The calls that set the state to [off] and leave the cached address alone. *)
Definition marks_off_only (c : Call) : bool :=
  match c with
  | signal_error_occurred _ => true
  | call_ensure_vm_is_running _ => true
  | _ => false
  end.

(** The states handed to [persist_state_for], in order. *)
Fixpoint persisted (fx : list Effect) : list State :=
  match fx with
  | [] => []
  | persist_state_for _ s :: rest => s :: persisted rest
  | _ :: rest => persisted rest
  end.

(** One QMP event as QEMU prints it, on a line of its own. *)
Definition qmp_event_line (name : string) : QByteArray :=
  "{" ++ dq ++ "event" ++ dq ++ ": " ++ dq ++ name ++ dq ++ "}" ++ nl.

(** ** A concrete host and machine for the examples *)

Definition sample_listing : string :=
  "Snapshot list:" ++ nl
  ++ "ID        TAG                 VM SIZE                DATE       VM CLOCK" ++ nl
  ++ "1         suspend                286M 2019-03-01 10:00:00   00:01:02.123" ++ nl.

Definition sample_process : Process :=
  {| program := "qemu-system-x86_64";
     arguments := ["-nographic"; "-qmp"; "stdio"];
     working_directory := "/" |}.

(** A host on which [qemu-img] prints [listing], the files in [files] exist,
    no metadata is stored and spawning the child gives [spawned]. *)
Definition sample_host (listing : string) (files : list string) (spawned : bool) : Host :=
  {| run_cmd_for_output := fun _ _ => listing;
     file_exists := fun path => existsb (String.eqb path) files;
     dump_vmstate := None;
     retrieve_metadata_for := fun _ => [];
     create_process := fun _ _ _ _ => sample_process;
     wait_for_started := spawned |}.

Definition sample_desc : VirtualMachineDescription :=
  {| desc_vm_name := "primary";
     image_path := "/var/images/primary.img";
     cloud_init_iso := "/var/images/cloud-init-config.iso";
     desc_mac_addr := "52:54:00:12:34:56";
     ssh_username := "ubuntu" |}.

Definition sample_files : list string :=
  ["/var/images/primary.img"; "/var/images/cloud-init-config.iso"].

(** A machine in state [st] whose child process has been created. *)
Definition sample_vm (st : State) : QemuVirtualMachine :=
  set_vm_process (Some sample_process) (initial_members st sample_desc "tap-0123").

(** ** The members of the backend outside the lifecycle handlers *)

(** [mp::utils::TimeoutAction]. *)
Inductive TimeoutAction : Type := done | retry.

(** The action [ssh_hostname] retries.  [is_running] is the answer of
    [vm_process->running()] and [lease] that of
    [dnsmasq_server->get_ip_for(mac_addr)] at this attempt. *)
Definition ssh_hostname_action (is_running : bool) (lease : option string) : M TimeoutAction :=
  ensure_vm_is_running is_running ;;
  match lease with
  | Some a => write (set_ip (Some a)) ;; ret done
  | None => ret retry
  end.

(** Modelled from the spec: [mp::utils::try_action_for] is declared in
    [utils.h], which is not among the sources.  The spec has it drive the
    retry loop and raise the caller-supplied error once the budget is
    exhausted; [attempts] are the attempts the budget leaves time for. *)
Fixpoint try_action_for (on_timeout : exception) (attempts : list (M TimeoutAction))
  : M unit :=
  match attempts with
  | [] => throw on_timeout
  | action :: later =>
      outcome <- action ;;
      match outcome with
      | done => ret tt
      | retry => try_action_for on_timeout later
      end
  end.

(** [ssh_hostname].  [observations] are the answers the child process and
    the DHCP server give at the successive attempts.  The result [None]
    stands for [ip.value()] taken of an empty optional. *)
Definition ssh_hostname (observations : list (bool * option string)) : M (option string) :=
  cached <- read ip ;;
  match cached with
  | Some _ => ret tt
  | None =>
      try_action_for (runtime_error "failed to determine IP address")
        (map (fun o => ssh_hostname_action (fst o) (snd o)) observations)
  end ;;
  read ip.

(** [wait_until_ssh_up].  [utils_wait] is the call of
    [mp::utils::wait_until_ssh_up] with [ensure_vm_is_running] bound as its
    check: it returns once SSH answers and throws otherwise. *)
Definition wait_until_ssh_up (utils_wait : M unit) : M unit :=
  utils_wait ;;
  pending <- read delete_memory_snapshot ;;
  when pending
    (mpl_log debug (format "Deleted memory snapshot" []) ;;
     process_do (process_write (hmc_to_qmp_json ("delvm " ++ suspend_tag))) ;;
     write (set_delete_memory_snapshot false)).

(** What the destructor does: the backend's effects and the commands it runs
    on the host through [mp::utils::run_cmd_for_status]. *)
Inductive Action : Type :=
| backend (e : Effect)
| host_command (program : string) (args : list string).

(** [remove_tap_device]: the commands run, given the host's answer to each. *)
Definition remove_tap_device (run_cmd_for_status : string -> list string -> bool)
    (tap : QString) : list Action :=
  if run_cmd_for_status "ip" ["addr"; "show"; tap]
  then [host_command "ip" ["addr"; "show"; tap];
        host_command "ip" ["link"; "delete"; tap]]
  else [host_command "ip" ["addr"; "show"; tap]].

(** The destructor.  An exception that leaves it ends the program, so nothing
    follows a throwing [suspend] or [shutdown]. *)
Definition QemuVirtualMachine_dtor (run_cmd_for_status : string -> list string -> bool)
    (is_running : bool) (vm : QemuVirtualMachine)
  : result unit * QemuVirtualMachine * list Action :=
  let vm0 := set_update_shutdown_status false vm in
  match (if State_beq (state vm0) running then suspend is_running else shutdown is_running) vm0
  with
  | (returns _, vm1, fx) =>
      (returns tt, vm1,
       (map backend fx
        ++ remove_tap_device run_cmd_for_status (tap_device_name vm1)
        ++ match vm_process vm1 with
           | Some _ => [backend process_wait_for_finished]
           | None => []
           end)%list)
  | (throws e, vm1, fx) => (throws e, vm1, map backend fx)
  end.


(** The effects that reach the status monitor. *)
Definition reaches_monitor (e : Effect) : bool :=
  match e with
  | persist_state_for _ _ | update_metadata_for _ _
  | monitor_on_resume | monitor_on_shutdown | monitor_on_suspend | monitor_on_restart _ => true
  | _ => false
  end.

(** The effects that act on the child process. *)
Definition acts_on_process (e : Effect) : bool :=
  match e with
  | process_start _ | process_write _ | process_kill | process_wait_for_finished => true
  | _ => false
  end.

(** A host like [sample_host] whose monitor stores [metadata] and whose
    machine-type probe left [dumped] in its file. *)
Definition sample_host_with (metadata : QJsonObject) (dumped : option QByteArray)
    (spawned : bool) : Host :=
  {| run_cmd_for_output := fun _ _ => sample_listing;
     file_exists := fun path => existsb (String.eqb path) sample_files;
     dump_vmstate := dumped;
     retrieve_metadata_for := fun _ => metadata;
     create_process := fun _ _ _ _ => sample_process;
     wait_for_started := spawned |}.

(** ** The mocks of [tests/test_sshfsmount.cpp] *)

Module SshfsMountTest.

(** The return codes of libssh the fixture uses. *)
Inductive ssh_rc : Type := SSH_OK | SSH_ERROR.

(** What [make_exec_that_fails_for] writes to: the caller's [invoked] flag and
    the exit code handed to [exit_status_mock] ([None] while it was not told
    one). *)
Record ExecMock : Type := {
  invoked : bool;
  exit_code : option ssh_rc
}.

(** The loop over [expected_cmds] in the lambda of
    [make_exec_that_fails_for]; [cmd.find(expected_cmd) != npos] is the
    substring test. *)
Fixpoint fails_for (expected_cmds : list string) (cmd : string) (m : ExecMock) : ExecMock :=
  match expected_cmds with
  | [] => m
  | expected_cmd :: rest =>
      fails_for rest cmd
        (if Qt.contains expected_cmd cmd
         then {| invoked := true; exit_code := Some SSH_ERROR |}
         else m)
  end.

Definition request_exec (expected_cmds : list string) (cmd : string) (m : ExecMock)
  : ssh_rc * ExecMock :=
  (SSH_OK, fails_for expected_cmds cmd m).

(** [static_cast<uint32_t>]. *)
Definition uint32 (n : N) : N := (n mod 2 ^ 32)%N.

(** The lambda of [make_channel_read_return], called with [count] while the
    captured [output], [remaining] and [prereq_invoked] have these values: the
    bytes copied to [dest], the number returned and the new [remaining]. *)
Definition channel_read (output : string) (remaining : N) (prereq_invoked : bool)
    (count : N) : string * N * N :=
  if negb prereq_invoked then (EmptyString, 0%N, remaining)
  else
    let num_to_copy := N.min count (uint32 remaining) in
    let begin := (N.of_nat (String.length output) - remaining)%N in
    (String.substring (N.to_nat begin) (N.to_nat num_to_copy) output,
     num_to_copy, (remaining - num_to_copy)%N).

(** Successive calls with the given [counts], [output] and [prereq_invoked]
    staying as they are: the bytes copied in all and the last [remaining]. *)
Fixpoint channel_reads (output : string) (remaining : N) (counts : list N) : string * N :=
  match counts with
  | [] => (EmptyString, remaining)
  | count :: later =>
      let '(copied, _, remaining1) := channel_read output remaining true count in
      let '(more, remaining2) := channel_reads output remaining1 later in
      (copied ++ more, remaining2)
  end.

(** The bytes of [output] not yet handed out. *)
Definition pending (output : string) (remaining : N) : string :=
  String.substring (String.length output - N.to_nat remaining) (N.to_nat remaining) output.

End SshfsMountTest.

(** ** Further notions used to state the properties *)

(** [c] occurs in [s]. *)
Fixpoint has_char (c : ascii) (s : string) : bool :=
  match s with
  | EmptyString => false
  | String d s' => Ascii.eqb d c || has_char c s'
  end.

(** A notification of the monitor that follows a change of state. *)
Definition notifies_state_change (e : Effect) : bool :=
  match e with
  | monitor_on_resume | monitor_on_shutdown | monitor_on_restart _ => true
  | _ => false
  end.

(** In [fx], every notification of a change of state comes right after
    [persist_state_for name st]; [ready] tells whether the effect before [fx]
    was that call. *)
Fixpoint persisted_before_notified (name : string) (st : State) (ready : bool)
    (fx : list Effect) : bool :=
  match fx with
  | [] => true
  | e :: rest =>
      (if notifies_state_change e then ready else true)
      && persisted_before_notified name st
           (match e with
            | persist_state_for n s => String.eqb n name && State_beq s st
            | _ => false
            end) rest
  end.

(** The machine type [start] resumes with: the string stored under
    [machine_type], the default when there is none. *)
Definition resumed_machine_type (metadata : QJsonObject) : string :=
  match QJson.value metadata machine_type_key with
  | JString mt => mt
  | _ => default_machine_type
  end.

(** The arguments that attach the cloud-init image on resume. *)
Definition cloud_init_arguments (metadata : QJsonObject) (cloud_init : QString) : list string :=
  if QJson.toBool (QJson.value metadata "use_cdrom")
  then ["-cdrom"; cloud_init]
  else ["-drive"; "file=" ++ cloud_init ++ ",if=virtio,format=raw,snapshot=off,read-only"].

(** What the machine-type probe leaves behind on a host with QEMU 2.11. *)
Definition sample_dump : QByteArray :=
  "{" ++ dq ++ "vmschk" ++ dq ++ ": [], " ++ dq ++ "vmschkmachine" ++ dq
  ++ ": {" ++ dq ++ "Name" ++ dq ++ ": " ++ dq ++ "pc-i440fx-2.11" ++ dq ++ "}}".

(** A line of the log. *)
Definition is_log (e : Effect) : bool :=
  match e with
  | log _ _ _ => true
  | _ => false
  end.

(** The first line of a chunk, decoded into a typed event. *)
Definition first_event (chunk : QByteArray) : option QmpEvent :=
  typed_event (object (QJsonParser.fromJson (Qt.first (Qt.split newline chunk)))).

(** * Properties *)

(** ** Strings *)

Section StringFacts.

Lemma append_assoc (a b c : string) : (a ++ b) ++ c = a ++ (b ++ c).
Proof.
  induction a as [|x a IH]; simpl; [reflexivity|].
  now rewrite IH.
Qed.

Lemma append_empty_r (a : string) : a ++ EmptyString = a.
Proof.
  induction a as [|x a IH]; simpl; [reflexivity|].
  now rewrite IH.
Qed.

Lemma prefix_append (needle s : string) :
  String.prefix needle s = true <-> exists after, s = needle ++ after.
Proof.
  revert s. induction needle as [|c needle IH]; intros s.
  - destruct s; split; intros _; try reflexivity; eexists; reflexivity.
  - destruct s as [|d s]; cbn [String.prefix].
    + split; [discriminate|]. intros [after H]. discriminate.
    + destruct (ascii_dec c d) as [->|Hne].
      * split.
        -- intros H. apply IH in H. destruct H as [after H]. exists after.
           simpl. now rewrite H.
        -- intros [after H]. apply IH. exists after. now inversion H.
      * split; [discriminate|]. intros [after H]. simpl in H. congruence.
Qed.

(** [Qt.contains] decides [occurs_in]. *)
Lemma contains_occurs_in (needle s : string) :
  Qt.contains needle s = true <-> occurs_in needle s.
Proof.
  unfold occurs_in. induction s as [|c s IH]; cbn [Qt.contains].
  - rewrite orb_false_r. split.
    + intros H. apply prefix_append in H. destruct H as [after H].
      exists EmptyString, after. exact H.
    + intros [before [after H]]. apply prefix_append.
      destruct before; simpl in H; [now exists after | discriminate].
  - rewrite orb_true_iff. split.
    + intros [H|H].
      * apply prefix_append in H. destruct H as [after H].
        exists EmptyString, after. exact H.
      * apply IH in H. destruct H as [before [after H]].
        exists (String c before), after. simpl. now rewrite H.
    + intros [before [after H]]. destruct before as [|d before]; simpl in H.
      * left. apply prefix_append. now exists after.
      * right. apply IH. inversion H. now exists before, after.
Qed.

Lemma split_not_nil (sep : ascii) (s : string) : Qt.split sep s <> [].
Proof.
  destruct s as [|c s]; simpl; [discriminate|].
  destruct (Ascii.eqb c sep); [discriminate|].
  destruct (Qt.split sep s); discriminate.
Qed.

(** The pieces of [Qt.split], put back together around the separator, are the
    string that was split. *)
Lemma split_join (sep : ascii) (s : string) :
  Qt.join (String sep EmptyString) (Qt.split sep s) = s.
Proof.
  unfold Qt.join. induction s as [|c s IH]; [reflexivity|].
  cbn [Qt.split]. pose proof (split_not_nil sep s) as Hnn.
  destruct (Qt.split sep s) as [|p ps]; [contradiction|].
  destruct (Ascii.eqb_spec c sep) as [->|Hne].
  - change (String.concat (String sep EmptyString) (EmptyString :: p :: ps))
      with (String sep (String.concat (String sep EmptyString) (p :: ps))).
    now rewrite IH.
  - destruct ps as [|q ps].
    + simpl in *. now rewrite IH.
    + change (String.concat (String sep EmptyString) (String c p :: q :: ps))
        with (String c (p ++ String sep EmptyString
                          ++ String.concat (String sep EmptyString) (q :: ps))).
      change (String.concat (String sep EmptyString) (p :: q :: ps))
        with (p ++ String sep EmptyString
                ++ String.concat (String sep EmptyString) (q :: ps)) in IH.
      now rewrite IH.
Qed.

(** No piece of [Qt.split] holds the separator. *)
Lemma split_pieces (sep : ascii) (s piece : string) :
  In piece (Qt.split sep s) -> ~ occurs_in (String sep EmptyString) piece.
Proof.
  revert piece. induction s as [|c s IH]; intros piece Hin.
  - simpl in Hin. destruct Hin as [<-|[]]. intros [before [after H]].
    destruct before; discriminate.
  - cbn [Qt.split] in Hin. destruct (Ascii.eqb_spec c sep) as [->|Hne].
    + destruct Hin as [<-|Hin]; [|now apply IH].
      intros [before [after H]]. destruct before; discriminate.
    + pose proof (split_not_nil sep s) as Hnn.
      destruct (Qt.split sep s) as [|p ps] eqn:E; [contradiction|].
      destruct Hin as [<-|Hin].
      * intros [before [after H]]. destruct before as [|d before]; simpl in H.
        -- inversion H. congruence.
        -- inversion H. apply (IH p (or_introl eq_refl)). now exists before, after.
      * apply IH. now right.
Qed.

End StringFacts.

(** ** Construction *)

Section Construction.

Variable host : Host.
Variable desc : VirtualMachineDescription.
Variable tap : string.

Lemma instance_image_has_snapshot_iff :
  instance_image_has_snapshot host (image_path desc) = true
  <-> listing_has_suspend_line host (image_path desc).
Proof.
  unfold instance_image_has_snapshot, listing_has_suspend_line.
  rewrite existsb_exists. split; intros [line [Hin Hc]]; exists line; split; trivial;
    now apply contains_occurs_in.
Qed.

(** C8: a virtual machine that has been constructed starts in state
    [suspended] exactly when some line of the output of
    [qemu-img snapshot -l <image>] contains [suspend], and in state [off]
    otherwise. *)
Theorem initial_state_from_snapshot (vm : QemuVirtualMachine) :
  QemuVirtualMachine_ctor host desc tap = returns vm ->
  (state vm = suspended <-> listing_has_suspend_line host (image_path desc)) /\
  (state vm = off <-> ~ listing_has_suspend_line host (image_path desc)).
Proof.
  unfold QemuVirtualMachine_ctor. intros H.
  destruct (negb (file_exists host (image_path desc))
            || negb (file_exists host (cloud_init_iso desc))); [discriminate|].
  injection H as <-. cbn [state initial_members].
  rewrite <- instance_image_has_snapshot_iff.
  destruct (instance_image_has_snapshot host (image_path desc)); split; split;
    intros; try reflexivity; try discriminate; try congruence.
Qed.

(** C10: the constructor throws the runtime error "cannot start VM without an
    image" exactly when the image file or the cloud-init ISO file does not
    exist, so an object is only ever created with both files present. *)
Theorem ctor_requires_both_files :
  (file_exists host (image_path desc) = false
   \/ file_exists host (cloud_init_iso desc) = false ->
   QemuVirtualMachine_ctor host desc tap
   = throws (runtime_error "cannot start VM without an image")) /\
  (forall vm, QemuVirtualMachine_ctor host desc tap = returns vm ->
     file_exists host (image_path desc) = true
     /\ file_exists host (cloud_init_iso desc) = true) /\
  (forall e, QemuVirtualMachine_ctor host desc tap = throws e ->
     e = runtime_error "cannot start VM without an image").
Proof.
  unfold QemuVirtualMachine_ctor.
  destruct (file_exists host (image_path desc));
    destruct (file_exists host (cloud_init_iso desc)); cbn [negb orb];
    (split; [|split]); try tauto; try discriminate; try reflexivity.
  all: try (intros [H|H]; discriminate).
  all: try (intros vm H; discriminate).
  all: try (intros e H; now inversion H).
Qed.

End Construction.

Lemma initial_state_from_snapshot_witness :
  state (initial_members suspended sample_desc "tap-0123") = suspended
  <-> listing_has_suspend_line (sample_host sample_listing sample_files true)
        (image_path sample_desc).
Proof.
  apply (initial_state_from_snapshot
           (sample_host sample_listing sample_files true) sample_desc "tap-0123").
  reflexivity.
Defined.

Lemma ctor_requires_both_files_witness :
  QemuVirtualMachine_ctor (sample_host sample_listing [] true) sample_desc "tap-0123"
  = throws (runtime_error "cannot start VM without an image").
Proof.
  apply (ctor_requires_both_files (sample_host sample_listing [] true) sample_desc "tap-0123").
  left. reflexivity.
Defined.

(** ** Metadata *)

Section Metadata.

Lemma value_contains (o : QJsonObject) (key : QString) :
  QJson.value o key <> JUndefined -> QJson.contains o key = true.
Proof.
  induction o as [|[k v] o IH]; simpl; [congruence|].
  destruct (String.eqb k key); simpl; auto.
Qed.

Lemma toBool_true (v : QJsonValue) : QJson.toBool v = true <-> v = JBool true.
Proof.
  destruct v as [| [|] | | | | |]; simpl; split; congruence.
Qed.

(** C6: the command version read from a metadata object is the value of
    [vm_command_version] when that key is present; when it is absent it is 1
    if the legacy key [use_cdrom] is present and true, and 0 otherwise. *)
Theorem command_version_reading (metadata : QJsonObject) :
  (QJson.contains metadata vm_command_version_key = true ->
   get_vm_command_version metadata
   = QJson.toInt (QJson.value metadata vm_command_version_key)) /\
  (forall m e n,
     QJson.value metadata vm_command_version_key = JDouble m e ->
     QJson.integral m e = Some n ->
     (QJson.int_min <= n <= QJson.int_max)%Z ->
     get_vm_command_version metadata = n) /\
  (QJson.contains metadata vm_command_version_key = false ->
   QJson.value metadata "use_cdrom" = JBool true ->
   get_vm_command_version metadata = 1%Z) /\
  (QJson.contains metadata vm_command_version_key = false ->
   QJson.value metadata "use_cdrom" <> JBool true ->
   get_vm_command_version metadata = 0%Z).
Proof.
  unfold get_vm_command_version. repeat split.
  - intros ->. reflexivity.
  - intros m e n Hv Hi [Hlo Hhi].
    rewrite value_contains by (rewrite Hv; discriminate).
    rewrite Hv. cbn [QJson.toInt]. rewrite Hi.
    apply Z.leb_le in Hlo, Hhi. now rewrite Hlo, Hhi.
  - intros -> Hv.
    rewrite value_contains by (rewrite Hv; discriminate).
    now rewrite Hv.
  - intros -> Hv.
    destruct (QJson.contains metadata "use_cdrom"); [|reflexivity].
    destruct (QJson.toBool (QJson.value metadata "use_cdrom")) eqn:E; [|reflexivity].
    apply toBool_true in E. contradiction.
Qed.

Lemma command_version_reading_witness :
  get_vm_command_version [("machine_type", JString "pc-i440fx-2.11");
                          ("vm_command_version", JDouble 1 0)] = 1%Z
  /\ get_vm_command_version [("use_cdrom", JBool true)] = 1%Z
  /\ get_vm_command_version [("use_cdrom", JBool false)] = 0%Z.
Proof.
  split; [|split].
  - apply (proj1 (proj2 (command_version_reading _)) 1%Z 0%Z 1%Z);
      [reflexivity | reflexivity | unfold QJson.int_min, QJson.int_max; lia].
  - apply (proj1 (proj2 (proj2 (command_version_reading _)))); reflexivity.
  - apply (proj2 (proj2 (proj2 (command_version_reading _)))); [reflexivity|discriminate].
Defined.

(** The metadata [start] writes reads back as the latest command version,
    whatever machine type was probed. *)
Lemma generated_metadata_reads_latest (host : Host) :
  get_vm_command_version (generate_metadata host) = latest_vm_command_version
  /\ QJson.value (generate_metadata host) machine_type_key
     = QJsonValue_of_QString (get_qemu_machine_type host).
Proof.
  unfold generate_metadata.
  destruct (get_qemu_machine_type host); split; reflexivity.
Qed.

(** A legacy object that only has [use_cdrom] set reads as version 1. *)
Lemma legacy_metadata_reads_one :
  get_vm_command_version [("use_cdrom", JBool true)] = 1%Z.
Proof. reflexivity. Qed.

End Metadata.

(** ** The public operations *)

(** Unfolds a member function applied to an object down to its result. *)
Ltac run_member :=
  cbv [bind ret throw emit read write when with_process process_do mpl_log update_state
       value_of object_of effects_of];
  cbn [state vm_name vm_desc tap_device_name mac_addr username cloud_init_path ip
       saved_error_msg update_shutdown_status delete_memory_snapshot vm_process
       set_state set_ip set_saved_error_msg set_update_shutdown_status
       set_delete_memory_snapshot set_vm_process app State_beq orb andb negb fst snd].

Section Operations.

Local Opaque qmp_execute_json hmc_to_qmp_json.

(** On a machine whose child process has been created, [shutdown] only logs
    when the state is [suspended]; when the child is running and the state is
    [running], [delayed_shutdown] or [unknown] it writes the QMP command
    [system_powerdown] and waits for the child to finish; otherwise it kills
    the child and waits, after clearing [update_shutdown_status] when the
    state is [starting]. *)
Theorem shutdown_by_state (vm : QemuVirtualMachine) (is_running : bool) :
  (state vm = suspended ->
   shutdown is_running vm
   = (returns tt, vm,
      [log info (vm_name vm) "Ignoring shutdown issued while suspended"])) /\
  (forall p, vm_process vm = Some p ->
   is_running = true ->
   state vm = running \/ state vm = delayed_shutdown \/ state vm = unknown ->
   shutdown is_running vm
   = (returns tt, vm,
      [process_write (qmp_execute_json "system_powerdown");
       process_wait_for_finished])) /\
  (forall p, vm_process vm = Some p ->
   state vm <> suspended ->
   is_running = false
   \/ (state vm <> running /\ state vm <> delayed_shutdown /\ state vm <> unknown) ->
   shutdown is_running vm
   = (returns tt,
      (if State_beq (state vm) starting then set_update_shutdown_status false vm else vm),
      [process_kill; process_wait_for_finished])).
Proof.
  destruct vm as [st name d tp mac user ci addr msg uss dms proc].
  unfold shutdown. run_member. repeat split.
  - intros ->. reflexivity.
  - intros p -> -> [ -> | [ -> | -> ] ]; reflexivity.
  - intros p -> Hns [ -> | [H1 [H2 H3]] ]; destruct st; try reflexivity; congruence.
Qed.

(** C4: on a machine without a child process, which is how the constructor
    leaves it, [shutdown] in any state but [suspended] calls through the null
    [vm_process]: in state [running], [delayed_shutdown] or [unknown] when it
    asks whether the child runs, and otherwise when it kills, after clearing
    [update_shutdown_status] in state [starting].  Nothing is killed or
    waited for and the call does not return. *)
Theorem shutdown_without_child_process (vm : QemuVirtualMachine) (is_running : bool) :
  vm_process vm = None ->
  state vm <> suspended ->
  shutdown is_running vm
  = (throws null_pointer,
     (if State_beq (state vm) starting then set_update_shutdown_status false vm else vm),
     []).
Proof.
  destruct vm as [st name d tp mac user ci addr msg uss dms proc].
  cbn [vm_process state]. intros -> Hns.
  unfold shutdown. run_member.
  destruct st; try reflexivity. congruence.
Qed.

End Operations.

Lemma shutdown_by_state_witness :
  shutdown true (sample_vm running)
  = (returns tt, sample_vm running,
     [process_write (qmp_execute_json "system_powerdown"); process_wait_for_finished])
  /\ shutdown true (sample_vm starting)
     = (returns tt, set_update_shutdown_status false (sample_vm starting),
        [process_kill; process_wait_for_finished])
  /\ shutdown true (sample_vm suspended)
     = (returns tt, sample_vm suspended,
        [log info "primary" "Ignoring shutdown issued while suspended"]).
Proof.
  split; [|split].
  - apply (proj1 (proj2 (shutdown_by_state (sample_vm running) true)) sample_process);
      [reflexivity | reflexivity | left; reflexivity].
  - apply (proj2 (proj2 (shutdown_by_state (sample_vm starting) true)) sample_process);
      [reflexivity | discriminate | right; repeat split; discriminate].
  - apply (proj1 (shutdown_by_state (sample_vm suspended) true)). reflexivity.
Defined.

Lemma shutdown_without_child_process_witness :
  QemuVirtualMachine_ctor (sample_host EmptyString sample_files true) sample_desc "tap-0123"
  = returns (initial_members off sample_desc "tap-0123")
  /\ shutdown false (initial_members off sample_desc "tap-0123")
     = (throws null_pointer, initial_members off sample_desc "tap-0123", []).
Proof.
  split; [reflexivity|].
  apply (shutdown_without_child_process (initial_members off sample_desc "tap-0123") false);
    [reflexivity | discriminate].
Defined.

(** The destructor guards its own [wait_for_finished] with [if (vm_process)]
    but calls [suspend] or [shutdown] before that without a guard: destroying
    a machine that was constructed and never started ends in the same call
    through the null pointer, before the tap device is removed. *)
Lemma destructor_of_unstarted_machine
    (run_cmd_for_status : string -> list string -> bool) (is_running : bool) :
  QemuVirtualMachine_dtor run_cmd_for_status is_running
    (initial_members off sample_desc "tap-0123")
  = (throws null_pointer,
     set_update_shutdown_status false (initial_members off sample_desc "tap-0123"), []).
Proof. reflexivity. Qed.

Section Start.

Local Opaque qmp_execute_json hmc_to_qmp_json.

(** C9: [start] does nothing when the state is [running]; it throws a runtime
    error when the state is [suspending], with the message "cannot start the
    instance while suspending"; and it throws "failed to start qemu instance"
    when the child process does not start. *)
Theorem start_outcomes (host : Host) (vm : QemuVirtualMachine) :
  (state vm = running -> start host vm = (returns tt, vm, [])) /\
  (state vm = suspending ->
   start host vm
   = (throws (runtime_error "cannot start the instance while suspending"), vm, [])) /\
  (state vm <> running -> state vm <> suspending -> wait_for_started host = false ->
   value_of (start host vm) = throws (runtime_error "failed to start qemu instance")).
Proof.
  destruct vm as [st name d tp mac user ci addr msg uss dms proc].
  unfold start. run_member. repeat split.
  - intros ->. reflexivity.
  - intros ->. reflexivity.
  - intros H1 H2 ->. destruct st; try congruence; try reflexivity.
    unfold resume_arguments. run_member.
    destruct (QJson.ref (retrieve_metadata_for host name) machine_type_key) as [mv md].
    destruct (QJson.toString mv); reflexivity.
Qed.

(** The message of the error thrown while suspending is not the one the
    specification quotes. *)
Lemma start_while_suspending_message :
  value_of (start (sample_host sample_listing sample_files true) (sample_vm suspending))
  <> throws (runtime_error "cannot start while suspending").
Proof. vm_compute. discriminate. Qed.

End Start.

Lemma start_outcomes_witness :
  start (sample_host sample_listing sample_files true) (sample_vm running)
  = (returns tt, sample_vm running, [])
  /\ start (sample_host sample_listing sample_files true) (sample_vm suspending)
     = (throws (runtime_error "cannot start the instance while suspending"),
        sample_vm suspending, [])
  /\ value_of (start (sample_host sample_listing sample_files false) (sample_vm off))
     = throws (runtime_error "failed to start qemu instance").
Proof.
  split; [|split].
  - apply (proj1 (start_outcomes _ (sample_vm running))). reflexivity.
  - apply (proj1 (proj2 (start_outcomes _ (sample_vm suspending)))). reflexivity.
  - apply (proj2 (proj2 (start_outcomes (sample_host sample_listing sample_files false)
                           (sample_vm off)))); [discriminate | discriminate | reflexivity].
Defined.

(** ** The handlers *)

Section Handlers.

Local Opaque qmp_execute_json hmc_to_qmp_json QJsonParser.fromJson.

(** The source's chain of string comparisons on the first line of a chunk is
    the decoding of that line into a typed event followed by its handling. *)
Lemma handler_decodes_first_object (chunk : QByteArray) (vm : QemuVirtualMachine) :
  ready_read_standard_output_handler chunk vm = decode_first_object chunk vm.
Proof.
  destruct vm as [st name d tp mac user ci addr msg uss dms proc].
  unfold ready_read_standard_output_handler, decode_first_object, decode_line, typed_event.
  set (o := object (QJsonParser.fromJson (Qt.first (Qt.split newline chunk)))).
  unfold QJson.ref.
  destruct (QJson.contains o "event") eqn:Hc; [|reflexivity].
  cbn [fst]. destruct (QJson.value o "event") as [| b | m e | s | a | o' |] eqn:Hv;
    cbn [QJson.isNull QJson.toString QJson.string_is negb]; try reflexivity.
  unfold handle_event.
  destruct (String.eqb_spec s "RESET") as [->|H1]; [destruct st; reflexivity|].
  destruct (String.eqb_spec s "POWERDOWN") as [->|H2]; [reflexivity|].
  destruct (String.eqb_spec s "SHUTDOWN") as [->|H3]; [reflexivity|].
  destruct (String.eqb_spec s "STOP") as [->|H4]; [reflexivity|].
  destruct (String.eqb_spec s "RESUME") as [->|H5]; reflexivity.
Qed.

(** What handling each typed event leaves behind. *)
Lemma handle_event_cases (e : QmpEvent) (vm : QemuVirtualMachine) :
  handle_event e vm =
  match e with
  | RESET =>
      if State_beq (state vm) restarting then (returns tt, vm, [])
      else (returns tt, set_ip None (set_state restarting vm),
            [log info (vm_name vm) "VM restarting";
             persist_state_for (vm_name vm) restarting;
             monitor_on_restart (vm_name vm)])
  | POWERDOWN => (returns tt, vm, [log info (vm_name vm) "VM powering down"])
  | SHUTDOWN => (returns tt, vm, [log info (vm_name vm) "VM shut down"])
  | STOP => (returns tt, vm, [log info (vm_name vm) "VM suspending"])
  | RESUME =>
      if State_beq (state vm) suspending || State_beq (state vm) running then
        match vm_process vm with
        | Some _ => (returns tt, set_state suspended vm,
                     [log info (vm_name vm) "VM suspended"; process_kill; monitor_on_suspend])
        | None => (throws null_pointer, vm, [log info (vm_name vm) "VM suspended"])
        end
      else (returns tt, vm, [log info (vm_name vm) "VM suspended"])
  end.
Proof.
  destruct vm as [st name d tp mac user ci addr msg uss dms proc].
  destruct e; unfold handle_event, on_restart, on_suspend; run_member;
    try reflexivity; destruct st; try reflexivity; destruct proc; reflexivity.
Qed.

End Handlers.

Section Decoder.

Local Opaque qmp_execute_json hmc_to_qmp_json QJsonParser.fromJson.

(** C2: of every chunk read from the child's standard output the decoder
    decodes the first line only, as one JSON object: when that object has a
    field [event] naming one of RESET, POWERDOWN, SHUTDOWN, STOP and RESUME the
    event is handled, and an unknown event, an object without [event] or a
    line that is no object is ignored without failing. *)
Theorem decoder_reads_first_object (chunk : QByteArray) (vm : QemuVirtualMachine) :
  let line := Qt.first (Qt.split newline chunk) in
  let announce := log debug (vm_name vm) (format "QMP: {}" [chunk]) in
  ready_read_standard_output_handler chunk vm = decode_first_object chunk vm /\
  (forall e, typed_event (object (QJsonParser.fromJson line)) = Some e ->
     ready_read_standard_output_handler chunk vm
     = (value_of (handle_event e vm), object_of (handle_event e vm),
        announce :: effects_of (handle_event e vm))) /\
  (typed_event (object (QJsonParser.fromJson line)) = None ->
     ready_read_standard_output_handler chunk vm = (returns tt, vm, [announce])) /\
  (forall p, vm_process vm = Some p ->
     value_of (ready_read_standard_output_handler chunk vm) = returns tt).
Proof.
  cbv zeta. rewrite handler_decodes_first_object.
  unfold decode_first_object, decode_line. repeat split.
  - intros e ->. unfold bind at 1. unfold mpl_log at 1. run_member.
    destruct (handle_event e vm) as [[r vm'] fx]. reflexivity.
  - intros ->. reflexivity.
  - intros p Hp. destruct (typed_event _) as [e|]; [|reflexivity].
    unfold bind at 1. unfold mpl_log at 1. run_member.
    rewrite (handle_event_cases e vm).
    destruct e; try reflexivity.
    + destruct (State_beq (state vm) restarting); reflexivity.
    + rewrite Hp. destruct (State_beq (state vm) suspending || State_beq (state vm) running);
        reflexivity.
Qed.

(** C5: when a chunk of the child's output whose first line is a RESUME event
    arrives while the state is [suspending] or [running], the handler kills
    the child, sets the state to [suspended] and calls [on_suspend] on the
    monitor; it hands no state to [persist_state_for]. *)
Theorem resume_event_suspends (chunk : QByteArray) (vm : QemuVirtualMachine) (p : Process) :
  vm_process vm = Some p ->
  typed_event (object (QJsonParser.fromJson (Qt.first (Qt.split newline chunk)))) = Some RESUME ->
  state vm = suspending \/ state vm = running ->
  ready_read_standard_output_handler chunk vm
  = (returns tt, set_state suspended vm,
     [log debug (vm_name vm) (format "QMP: {}" [chunk]);
      log info (vm_name vm) "VM suspended";
      process_kill;
      monitor_on_suspend])
  /\ persisted (effects_of (ready_read_standard_output_handler chunk vm)) = [].
Proof.
  intros Hp He Hst. rewrite handler_decodes_first_object.
  unfold decode_first_object, decode_line. rewrite He.
  unfold bind at 1. unfold mpl_log at 1. run_member.
  rewrite (handle_event_cases RESUME vm), Hp.
  destruct Hst as [-> | ->]; split; reflexivity.
Qed.

End Decoder.

(** A chunk that carries two events: only the first is handled, where decoding
    every object would have suspended the machine. *)
Lemma second_event_of_chunk_is_dropped :
  let chunk := qmp_event_line "STOP" ++ qmp_event_line "RESUME" in
  ready_read_standard_output_handler chunk (sample_vm running)
  <> decode_each_object chunk (sample_vm running)
  /\ state (object_of (ready_read_standard_output_handler chunk (sample_vm running))) = running
  /\ state (object_of (decode_each_object chunk (sample_vm running))) = suspended.
Proof.
  cbv zeta. split; [|split].
  - intros H. apply (f_equal (fun r => state (object_of r))) in H.
    vm_compute in H. discriminate.
  - vm_compute. reflexivity.
  - vm_compute. reflexivity.
Qed.

Lemma decoder_reads_first_object_witness :
  ready_read_standard_output_handler (qmp_event_line "bogus") (sample_vm running)
  = (returns tt, sample_vm running,
     [log debug "primary" (format "QMP: {}" [qmp_event_line "bogus"])])
  /\ value_of (ready_read_standard_output_handler (qmp_event_line "RESUME") (sample_vm running))
     = returns tt.
Proof.
  split.
  - apply (proj1 (proj2 (proj2
             (decoder_reads_first_object (qmp_event_line "bogus") (sample_vm running))))).
    vm_compute. reflexivity.
  - apply (proj2 (proj2 (proj2
             (decoder_reads_first_object (qmp_event_line "RESUME") (sample_vm running))))
             sample_process).
    reflexivity.
Defined.

(** After [suspend] and the RESUME event that follows it the object is
    [suspended], the child was killed and the monitor was told, but the only
    state ever handed to [persist_state_for] is [suspending].  And a RESUME
    event that arrives in state [suspending] behind another event of the same
    chunk is not acted on: the child is not killed, the state stays
    [suspending] and the monitor is not told. *)
Lemma resume_event_is_not_persisted_nor_read_past_first_line :
  (let history :=
     [call_suspend true; signal_ready_read_standard_output (qmp_event_line "RESUME")] in
   state (fst (perform_all history (sample_vm running))) = suspended
   /\ In process_kill (snd (perform_all history (sample_vm running)))
   /\ In monitor_on_suspend (snd (perform_all history (sample_vm running)))
   /\ ~ In (persist_state_for "primary" suspended)
          (snd (perform_all history (sample_vm running)))
   /\ persisted (snd (perform_all history (sample_vm running))) = [suspending])
  /\ (let chunk := qmp_event_line "STOP" ++ qmp_event_line "RESUME" in
      ready_read_standard_output_handler chunk (sample_vm suspending)
      = (returns tt, sample_vm suspending,
         [log debug "primary" (format "QMP: {}" [chunk]);
          log info "primary" "VM suspending"])).
Proof.
  split.
  - vm_compute. repeat split; try tauto.
    intros H. repeat (destruct H as [H|H]; [discriminate H|]). exact H.
  - vm_compute. reflexivity.
Qed.

Lemma resume_event_suspends_witness :
  state (object_of (ready_read_standard_output_handler (qmp_event_line "RESUME")
                      (sample_vm suspending))) = suspended.
Proof.
  rewrite (proj1 (resume_event_suspends (qmp_event_line "RESUME") (sample_vm suspending)
                    sample_process eq_refl eq_refl (or_introl eq_refl))).
  reflexivity.
Defined.

Section ProcessExit.

(** C3: when [finished] fires, [on_shutdown] runs exactly when
    [update_shutdown_status] is set or the state is [starting].  Entered in
    state [starting], [on_shutdown] records "<name>: shutdown called while
    starting" in [saved_error_msg] and waits until the state is [off];
    otherwise it sets the state to [off].  In both cases it then clears the
    address, persists the state and calls [on_shutdown] on the monitor. *)
Theorem finished_runs_on_shutdown
    (vm : QemuVirtualMachine) (exitCode : Z) (exitStatus : ExitStatus) :
  let announce :=
    log info (vm_name vm)
      (format "process finished with exit code {} ({})"
         [QJsonWriter.decimal exitCode; qenum_ExitStatus exitStatus]) in
  let closing := [persist_state_for (vm_name vm) off; monitor_on_shutdown] in
  (update_shutdown_status vm = true \/ state vm = starting ->
   finished_handler exitCode exitStatus vm
   = (value_of (on_shutdown vm), object_of (on_shutdown vm),
      announce :: effects_of (on_shutdown vm))) /\
  (update_shutdown_status vm = false -> state vm <> starting ->
   finished_handler exitCode exitStatus vm = (returns completed, vm, [announce])) /\
  (state vm = starting ->
   on_shutdown vm
   = (returns waiting_for_off,
      set_saved_error_msg (vm_name vm ++ ": shutdown called while starting") vm,
      [printf ("EH??" ++ nl)])
   /\ occurs_in "shutdown called while starting"
        (saved_error_msg (object_of (on_shutdown vm)))) /\
  (state vm <> starting ->
   on_shutdown vm = (returns completed, set_ip None (set_state off vm), closing)) /\
  (state vm <> off ->
   on_shutdown_woken vm = (returns waiting_for_off, vm, [])) /\
  (state vm = off ->
   on_shutdown_woken vm = (returns completed, set_ip None vm, closing)).
Proof.
  destruct vm as [st name d tp mac user ci addr msg uss dms proc].
  cbv zeta. unfold finished_handler, on_shutdown, on_shutdown_woken, on_shutdown_rest.
  run_member. refine (conj _ (conj _ (conj _ (conj _ (conj _ _))))).
  - intros [-> | ->]; [destruct st|destruct uss]; reflexivity.
  - intros -> Hst. destruct st; try reflexivity. congruence.
  - intros ->. split; [reflexivity|].
    cbn. exists (name ++ ": "), EmptyString.
    now rewrite append_empty_r, append_assoc.
  - intros Hst. destruct st; try reflexivity. congruence.
  - intros Hst. destruct st; try reflexivity. congruence.
  - intros ->. reflexivity.
Qed.

End ProcessExit.

Lemma finished_runs_on_shutdown_witness :
  finished_handler 0 NormalExit (sample_vm running)
  = (returns completed, set_ip None (set_state off (sample_vm running)),
     [log info "primary" "process finished with exit code 0 (NormalExit)";
      persist_state_for "primary" off; monitor_on_shutdown])
  /\ on_shutdown (sample_vm starting)
     = (returns waiting_for_off,
        set_saved_error_msg "primary: shutdown called while starting" (sample_vm starting),
        [printf ("EH??" ++ nl)])
  /\ on_shutdown_woken (set_state off (sample_vm starting))
     = (returns completed, set_ip None (set_state off (sample_vm starting)),
        [persist_state_for "primary" off; monitor_on_shutdown]).
Proof.
  split; [|split].
  - rewrite (proj1 (finished_runs_on_shutdown (sample_vm running) 0 NormalExit)
               (or_introl eq_refl)).
    reflexivity.
  - apply (proj1 (proj2 (proj2 (finished_runs_on_shutdown (sample_vm starting) 0 NormalExit)))).
    reflexivity.
  - apply (proj2 (proj2 (proj2 (proj2 (proj2
             (finished_runs_on_shutdown (set_state off (sample_vm starting)) 0 NormalExit)))))).
    reflexivity.
Defined.

(** The child dies while the machine is starting: [on_shutdown] parks, a
    wake-up while the state is still [starting] changes nothing,
    [ensure_vm_is_running] then marks the machine [off] and throws the start
    exception with the recorded message, and the next wake-up completes
    [on_shutdown]. *)
Lemma child_dies_while_starting :
  let vm0 := sample_vm starting in
  let r1 := finished_handler 1 CrashExit vm0 in
  let r2 := on_shutdown_woken (object_of r1) in
  let r3 := ensure_vm_is_running false (object_of r2) in
  let r4 := on_shutdown_woken (object_of r3) in
  value_of r1 = returns waiting_for_off
  /\ value_of r2 = returns waiting_for_off
  /\ r3 = (throws (StartException "primary" "primary: shutdown called while starting"),
           set_state off (object_of r1), [state_wait_notify_all])
  /\ value_of r4 = returns completed
  /\ state (object_of r4) = off /\ ip (object_of r4) = None
  /\ effects_of r4 = [persist_state_for "primary" off; monitor_on_shutdown].
Proof. vm_compute. repeat split. Qed.

Section Invariant.

Local Opaque qmp_execute_json hmc_to_qmp_json QJsonParser.fromJson.

Lemma start_keeps_state_and_ip (host : Host) (vm : QemuVirtualMachine) :
  state (object_of (start host vm)) = state vm /\ ip (object_of (start host vm)) = ip vm.
Proof.
  destruct vm as [st name d tp mac user ci addr msg uss dms proc].
  unfold start. run_member.
  destruct st; run_member; try (split; reflexivity);
    try (destruct (wait_for_started host); split; reflexivity).
  unfold resume_arguments. run_member.
  destruct (QJson.ref (retrieve_metadata_for host name) machine_type_key) as [mv md].
  destruct (QJson.toString mv); run_member; destruct (wait_for_started host);
    split; reflexivity.
Qed.

(** Takes the object apart and runs the member named in the goal. *)
Ltac by_cases_on vm :=
  destruct vm as [st name d tp mac user ci addr msg uss dms proc];
  unfold stop, shutdown, suspend, ipv4, started_handler, on_started,
    ready_read_standard_error_handler, state_changed_handler, finished_handler,
    on_shutdown, on_shutdown_woken, on_shutdown_rest, ensure_vm_is_running,
    error_occurred_handler, on_error;
  run_member.

(** C1: whenever a call moves the state into [restarting] or [off], the cached
    address is empty afterwards, unless the call is the [error_occurred]
    handler or [ensure_vm_is_running]: these two set the state to [off] and
    leave the cached address as it was.  The [on_shutdown] that resumes once
    the state is [off] clears it. *)
Theorem address_on_entering_restarting_or_off :
  (forall c vm, enters_restarting_or_off c vm -> marks_off_only c = false ->
     ip (fst (perform c vm)) = None) /\
  (forall c vm, marks_off_only c = true -> ip (fst (perform c vm)) = ip vm) /\
  (forall vm, state vm = off ->
     state (object_of (on_shutdown_woken vm)) = off
     /\ ip (object_of (on_shutdown_woken vm)) = None).
Proof.
  split; [|split].
  - intros c vm [Hst Hne] Hm. destruct c; try discriminate Hm; cbn [perform fst] in *.
    + exfalso. apply Hne. symmetry. apply start_keeps_state_and_ip.
    + exfalso. revert Hst Hne. by_cases_on vm.
      destruct st, proc, is_running; run_member; intuition congruence.
    + exfalso. revert Hst Hne. by_cases_on vm.
      destruct st, proc, is_running; run_member; intuition congruence.
    + exfalso. revert Hst Hne. by_cases_on vm.
      destruct st, proc, is_running, uss; run_member; intuition congruence.
    + exfalso. apply Hne. reflexivity.
    + exfalso. revert Hst Hne. by_cases_on vm.
      destruct addr, lease; run_member; intuition congruence.
    + exfalso. revert Hst Hne. by_cases_on vm. intuition congruence.
    + revert Hst Hne. rewrite handler_decodes_first_object.
      unfold decode_first_object, decode_line.
      destruct (typed_event _) as [e|].
      * unfold bind at 1. unfold mpl_log at 1. run_member.
        pose proof (handle_event_cases e vm) as Hc.
        destruct (handle_event e vm) as [[r vm'] fx]. run_member.
        destruct e; revert Hc;
          destruct vm as [st name d tp mac user ci addr msg uss dms proc]; run_member;
          destruct st, proc; run_member; intros Hc; inversion Hc; subst; run_member;
          intuition congruence.
      * run_member. intuition congruence.
    + exfalso. revert Hst Hne. by_cases_on vm. intuition congruence.
    + exfalso. revert Hst Hne. by_cases_on vm. intuition congruence.
    + revert Hst Hne. by_cases_on vm.
      destruct uss, st; run_member; intuition congruence.
    + exfalso. revert Hst Hne. by_cases_on vm.
      destruct st; run_member; intuition congruence.
  - intros c vm Hm. destruct c; try discriminate Hm; cbn [perform fst].
    + by_cases_on vm. destruct proc, is_running; reflexivity.
    + by_cases_on vm. destruct uss; reflexivity.
  - intros vm Hoff. destruct vm as [st name d tp mac user ci addr msg uss dms proc].
    cbn [state] in Hoff. subst st. split; reflexivity.
Qed.

End Invariant.

(** A machine is constructed and started and its address is looked up and
    cached.  When the child then reports an error, or when
    [ensure_vm_is_running] finds the child gone, the state becomes [off] and
    the address is still cached. *)
Lemma address_survives_marking_off :
  let host := sample_host EmptyString sample_files true in
  let vm0 := initial_members off sample_desc "tap-0123" in
  let history := [call_start host; signal_started; call_ipv4 (Some "10.122.80.17")] in
  let vm1 := fst (perform_all history vm0) in
  QemuVirtualMachine_ctor host sample_desc "tap-0123" = returns vm0
  /\ state vm1 = starting
  /\ enters_restarting_or_off (signal_error_occurred Crashed) vm1
  /\ state (fst (perform (signal_error_occurred Crashed) vm1)) = off
  /\ ip (fst (perform (signal_error_occurred Crashed) vm1)) = Some "10.122.80.17"
  /\ enters_restarting_or_off (call_ensure_vm_is_running false) vm1
  /\ state (fst (perform (call_ensure_vm_is_running false) vm1)) = off
  /\ ip (fst (perform (call_ensure_vm_is_running false) vm1)) = Some "10.122.80.17".
Proof.
  cbv zeta. unfold enters_restarting_or_off. vm_compute.
  repeat split; try discriminate; right; reflexivity.
Qed.

Lemma address_on_entering_restarting_or_off_witness :
  ip (fst (perform (signal_finished 0 NormalExit)
             (set_ip (Some "10.122.80.17") (sample_vm running)))) = None
  /\ ip (fst (perform (signal_ready_read_standard_output (qmp_event_line "RESET"))
                (set_ip (Some "10.122.80.17") (sample_vm running)))) = None
  /\ ip (fst (perform (call_ensure_vm_is_running false)
                (set_ip (Some "10.122.80.17") (sample_vm starting))))
     = Some "10.122.80.17".
Proof.
  split; [|split].
  - apply (proj1 address_on_entering_restarting_or_off (signal_finished 0 NormalExit)).
    + split; [right; reflexivity | discriminate].
    + reflexivity.
  - apply (proj1 address_on_entering_restarting_or_off
             (signal_ready_read_standard_output (qmp_event_line "RESET"))).
    + split; [left; vm_compute; reflexivity | vm_compute; discriminate].
    + reflexivity.
  - apply (proj1 (proj2 address_on_entering_restarting_or_off)
             (call_ensure_vm_is_running false)).
    reflexivity.
Defined.

(** ** The parser's fuel *)

Section Fuel.

Import QJsonParser.

Lemma eatSpace_length (s : string) : String.length (eatSpace s) <= String.length s.
Proof.
  induction s as [|c s IH]; simpl; [lia|].
  destruct (is_space c); simpl; lia.
Qed.

Lemma nextToken_length (s r : string) (t : ascii) :
  nextToken s = Some (t, r) -> String.length r < String.length s.
Proof.
  unfold nextToken. pose proof (eatSpace_length s) as H.
  destruct (eatSpace s) as [|c s'] eqn:E; [discriminate|].
  pose proof (eatSpace_length s') as H'. cbn [String.length] in H.
  destruct (is_structural c); [intros [= <- <-]; lia|].
  destruct (Ascii.eqb c dquote); [intros [= <- <-]; lia|discriminate].
Qed.

Lemma prepend_some (p : string) (x : option (QString * string)) (str r : string) :
  prepend p x = Some (str, r) -> exists str', x = Some (str', r).
Proof.
  destruct x as [[a b]|]; simpl; [|discriminate]. intros [= <- <-]. now exists a.
Qed.

Lemma parseString_length (s str r : string) :
  parseString s = Some (str, r) -> String.length r < String.length s.
Proof.
  remember (String.length s) as n eqn:Hn. revert s str r Hn.
  induction n as [n IH] using lt_wf_ind. intros s str r Hn.
  destruct s as [|c s1]; [discriminate|]. cbn [parseString String.length] in *.
  destruct (Ascii.eqb c dquote); [intros [= <- <-]; lia|].
  destruct (Ascii.eqb c "\").
  - destruct s1 as [|e s2]; [discriminate|]. cbn [String.length] in *.
    destruct (Ascii.eqb e "u").
    + destruct s2 as [|h1 [|h2 [|h3 [|h4 s3]]]]; try discriminate.
      cbn [String.length] in *. destruct (hex4 h1 h2 h3 h4); [|discriminate].
      intros H. apply prepend_some in H. destruct H as [str' H].
      apply (IH (String.length s3)) in H; try reflexivity; lia.
    + intros H. apply prepend_some in H. destruct H as [str' H].
      apply (IH (String.length s2)) in H; try reflexivity; lia.
  - intros H. apply prepend_some in H. destruct H as [str' H].
    apply (IH (String.length s1)) in H; try reflexivity; lia.
Qed.

Lemma scanDigits_length (s : string) (acc n a k : Z) (r : string) :
  scanDigits s acc n = (a, k, r) -> String.length r <= String.length s.
Proof.
  revert acc n. induction s as [|c s IH]; intros acc n; cbn [scanDigits].
  - intros [= <- <- <-]. lia.
  - destruct (digit_value c).
    + intros H. apply IH in H. cbn [String.length]. lia.
    + intros [= <- <- <-]. lia.
Qed.

Lemma substring_length (s : string) (n m : nat) :
  String.length (String.substring n m s) <= String.length s.
Proof.
  revert n m. induction s as [|c s IH]; intros n m.
  - destruct n, m; simpl; lia.
  - destruct n; simpl.
    + destruct m; simpl; [lia|]. specialize (IH 0 m). lia.
    + specialize (IH n m). lia.
Qed.

Lemma literal_length (rest s r : string) (v w : QJsonValue) :
  literal rest v s = Some (w, r) -> String.length r <= String.length s.
Proof.
  unfold literal. destruct (String.prefix rest s); [|discriminate].
  intros [= <- <-]. apply substring_length.
Qed.

Lemma parseNumber_length (s r : string) (v : QJsonValue) :
  parseNumber s = Some (v, r) -> String.length r <= String.length s.
Proof.
  unfold parseNumber.
  destruct (scanMinus s) as [neg s1] eqn:E1.
  assert (H1 : String.length s1 <= String.length s).
  { unfold scanMinus in E1. destruct s as [|c r0]; [injection E1 as <- <-; lia|].
    destruct (Ascii.eqb c "-"); injection E1 as <- <-; simpl; lia. }
  destruct (scanInt s1) as [[i ni] s2] eqn:E2.
  assert (H2 : String.length s2 <= String.length s1).
  { unfold scanInt in E2. destruct s1 as [|c r0]; [injection E2 as <- <- <-; lia|].
    destruct (Ascii.eqb c "0"); [injection E2 as <- <- <-; simpl; lia|].
    now apply scanDigits_length in E2. }
  destruct (scanFrac i s2) as [[m nf] s3] eqn:E3.
  assert (H3 : String.length s3 <= String.length s2).
  { unfold scanFrac in E3. destruct s2 as [|c r0]; [injection E3 as <- <- <-; lia|].
    destruct (Ascii.eqb c "."); [|injection E3 as <- <- <-; simpl; lia].
    apply scanDigits_length in E3. simpl. lia. }
  destruct (scanExp s3) as [[[x nx] has_exp] s4] eqn:E4.
  assert (H4 : String.length s4 <= String.length s3).
  { unfold scanExp in E4. destruct s3 as [|c r0]; [injection E4 as <- <- <- <-; lia|].
    destruct (Ascii.eqb c "e" || Ascii.eqb c "E"); [|injection E4 as <- <- <- <-; simpl; lia].
    destruct r0 as [|d r1].
    - cbn in E4. injection E4 as <- <- <- <-. simpl. lia.
    - destruct (Ascii.eqb d "-"); [|destruct (Ascii.eqb d "+")].
      + destruct (scanDigits r1 0 0) as [[a k] r'] eqn:E. apply scanDigits_length in E.
        injection E4 as <- <- <- <-. simpl. lia.
      + destruct (scanDigits r1 0 0) as [[a k] r'] eqn:E. apply scanDigits_length in E.
        injection E4 as <- <- <- <-. simpl. lia.
      + destruct (scanDigits (String d r1) 0 0) as [[a k] r'] eqn:E.
        apply scanDigits_length in E. injection E4 as <- <- <- <-. simpl in *. lia. }
  destruct s4 as [|c4 s4']; [discriminate|].
  destruct ((ni + nf =? 0)%Z || has_exp && (nx =? 0)%Z); [discriminate|].
  intros [= <- <-]. lia.
Qed.

(** No call of the parser returns more input than it was given. *)
Lemma parse_length (fuel : nat) :
  (forall d s v r, parseValue fuel d s = Some (v, r) -> String.length r <= String.length s)
  /\ (forall d s o r, parseObject fuel d s = Some (o, r) -> String.length r <= String.length s)
  /\ (forall d s acc o r,
        parseMembers fuel d s acc = Some (o, r) -> String.length r <= String.length s)
  /\ (forall d s a r, parseArray fuel d s = Some (a, r) -> String.length r <= String.length s)
  /\ (forall d s acc a r,
        parseElements fuel d s acc = Some (a, r) -> String.length r <= String.length s).
Proof.
  induction fuel as [|fuel (IHV & IHO & IHM & IHA & IHE)].
  { repeat split; intros; discriminate. }
  refine (conj _ (conj _ (conj _ (conj _ _)))).
  - intros d s v r. cbn [parseValue]. destruct s as [|c s']; [discriminate|].
    cbn [String.length].
    destruct (Ascii.eqb c "n"); [intros H; apply literal_length in H; lia|].
    destruct (Ascii.eqb c "t"); [intros H; apply literal_length in H; lia|].
    destruct (Ascii.eqb c "f"); [intros H; apply literal_length in H; lia|].
    destruct (Ascii.eqb c dquote).
    { destruct (parseString s') as [[str rest]|] eqn:E; [|discriminate].
      apply parseString_length in E. intros [= <- <-]. lia. }
    destruct (Ascii.eqb c "[").
    { destruct (parseArray fuel d s') as [[a rest]|] eqn:E; [|discriminate].
      apply IHA in E. intros [= <- <-]. lia. }
    destruct (Ascii.eqb c "{").
    { destruct (parseObject fuel d s') as [[o rest]|] eqn:E; [|discriminate].
      apply IHO in E. intros [= <- <-]. lia. }
    destruct (Ascii.eqb c "]"); [discriminate|].
    intros H. apply parseNumber_length in H. cbn [String.length] in H. lia.
  - intros d s o r. cbn [parseObject].
    destruct (nestingLimit <? d + 1)%N; [discriminate|].
    destruct (nextToken s) as [[t s1]|] eqn:E; [|discriminate].
    apply nextToken_length in E.
    destruct (Ascii.eqb t dquote); [intros H; apply IHM in H; lia|].
    destruct (Ascii.eqb t "}"); [intros [= <- <-]; lia|discriminate].
  - intros d s acc o r. cbn [parseMembers].
    destruct (parseString s) as [[key s1]|] eqn:E1; [|discriminate].
    apply parseString_length in E1.
    destruct (nextToken s1) as [[t s2]|] eqn:E2; [|discriminate].
    apply nextToken_length in E2.
    destruct (negb (Ascii.eqb t ":")); [discriminate|].
    pose proof (eatSpace_length s2) as E3.
    destruct (eatSpace s2) as [|c3 s3]; [discriminate|].
    destruct (parseValue fuel d (String c3 s3)) as [[v s4]|] eqn:E4; [|discriminate].
    apply IHV in E4.
    destruct (nextToken s4) as [[t' s5]|] eqn:E5; [|discriminate].
    apply nextToken_length in E5.
    destruct (Ascii.eqb t' ",").
    + destruct (nextToken s5) as [[t'' s6]|] eqn:E6; [|discriminate].
      apply nextToken_length in E6.
      destruct (Ascii.eqb t'' dquote); [|discriminate].
      intros H. apply IHM in H. lia.
    + destruct (Ascii.eqb t' "}"); [intros [= <- <-]; lia|discriminate].
  - intros d s a r. cbn [parseArray].
    destruct (nestingLimit <? d + 1)%N; [discriminate|].
    pose proof (eatSpace_length s) as E1.
    destruct (eatSpace s) as [|c s1]; [discriminate|].
    destruct (Ascii.eqb c "]").
    + intros [= <- <-]. pose proof (eatSpace_length s1). cbn [String.length] in E1. lia.
    + intros H. apply IHE in H. lia.
  - intros d s acc a r. cbn [parseElements].
    pose proof (eatSpace_length s) as E1.
    destruct (eatSpace s) as [|c s1]; [discriminate|].
    destruct (parseValue fuel d (String c s1)) as [[v s2]|] eqn:E2; [|discriminate].
    apply IHV in E2.
    destruct (nextToken s2) as [[t s3]|] eqn:E3; [|discriminate].
    apply nextToken_length in E3.
    destruct (Ascii.eqb t "]"); [intros [= <- <-]; lia|].
    destruct (Ascii.eqb t ","); [|discriminate].
    intros H. apply IHE in H. lia.
Qed.

(** Above the stated bounds the result of a call does not depend on the fuel. *)
Lemma parse_fuel (fuel : nat) :
  (forall d s fuel', 3 * String.length s + 1 <= fuel -> 3 * String.length s + 1 <= fuel' ->
     parseValue fuel d s = parseValue fuel' d s)
  /\ (forall d s fuel', 3 * String.length s + 3 <= fuel -> 3 * String.length s + 3 <= fuel' ->
        parseObject fuel d s = parseObject fuel' d s)
  /\ (forall d s acc fuel',
        3 * String.length s + 2 <= fuel -> 3 * String.length s + 2 <= fuel' ->
        parseMembers fuel d s acc = parseMembers fuel' d s acc)
  /\ (forall d s fuel', 3 * String.length s + 3 <= fuel -> 3 * String.length s + 3 <= fuel' ->
        parseArray fuel d s = parseArray fuel' d s)
  /\ (forall d s acc fuel',
        3 * String.length s + 2 <= fuel -> 3 * String.length s + 2 <= fuel' ->
        parseElements fuel d s acc = parseElements fuel' d s acc).
Proof.
  induction fuel as [|fuel (IHV & IHO & IHM & IHA & IHE)].
  { repeat split; intros; lia. }
  destruct (parse_length fuel) as (LV & _).
  refine (conj _ (conj _ (conj _ (conj _ _)))).
  - intros d s [|fuel'] H H'; [lia|]. cbn [parseValue].
    destruct s as [|c s']; [reflexivity|]. cbn [String.length] in H, H'.
    rewrite (IHA d s' fuel') by lia. rewrite (IHO d s' fuel') by lia. reflexivity.
  - intros d s [|fuel'] H H'; [lia|]. cbn [parseObject].
    destruct (nestingLimit <? d + 1)%N; [reflexivity|].
    destruct (nextToken s) as [[t s1]|] eqn:E; [|reflexivity].
    apply nextToken_length in E.
    rewrite (IHM (d + 1)%N s1 [] fuel') by lia. reflexivity.
  - intros d s acc [|fuel'] H H'; [lia|]. cbn [parseMembers].
    destruct (parseString s) as [[key s1]|] eqn:E1; [|reflexivity].
    apply parseString_length in E1.
    destruct (nextToken s1) as [[t s2]|] eqn:E2; [|reflexivity].
    apply nextToken_length in E2.
    destruct (negb (Ascii.eqb t ":")); [reflexivity|].
    pose proof (eatSpace_length s2) as E3.
    destruct (eatSpace s2) as [|c3 s3]; [reflexivity|].
    rewrite <- (IHV d (String c3 s3) fuel') by lia.
    destruct (parseValue fuel d (String c3 s3)) as [[v s4]|] eqn:E4; [|reflexivity].
    apply LV in E4.
    destruct (nextToken s4) as [[t' s5]|] eqn:E5; [|reflexivity].
    apply nextToken_length in E5.
    destruct (Ascii.eqb t' ","); [|reflexivity].
    destruct (nextToken s5) as [[t'' s6]|] eqn:E6; [|reflexivity].
    apply nextToken_length in E6.
    destruct (Ascii.eqb t'' dquote); [|reflexivity].
    apply IHM; lia.
  - intros d s [|fuel'] H H'; [lia|]. cbn [parseArray].
    destruct (nestingLimit <? d + 1)%N; [reflexivity|].
    pose proof (eatSpace_length s) as E1.
    destruct (eatSpace s) as [|c s1]; [reflexivity|].
    destruct (Ascii.eqb c "]"); [reflexivity|].
    apply IHE; lia.
  - intros d s acc [|fuel'] H H'; [lia|]. cbn [parseElements].
    pose proof (eatSpace_length s) as E1.
    destruct (eatSpace s) as [|c s1]; [reflexivity|].
    rewrite <- (IHV d (String c s1) fuel') by lia.
    destruct (parseValue fuel d (String c s1)) as [[v s2]|] eqn:E2; [|reflexivity].
    apply LV in E2.
    destruct (nextToken s2) as [[t s3]|] eqn:E3; [|reflexivity].
    apply nextToken_length in E3.
    destruct (Ascii.eqb t "]"); [reflexivity|].
    destruct (Ascii.eqb t ","); [|reflexivity].
    apply IHE; lia.
Qed.

(** [fuel_for] starves no parse: more fuel gives [fromJson] nothing more. *)
Lemma fuel_for_is_enough (s s1 : string) (t : ascii) (more : nat) :
  nextToken s = Some (t, s1) ->
  parseObject (fuel_for s + more) 0 s1 = parseObject (fuel_for s) 0 s1
  /\ parseArray (fuel_for s + more) 0 s1 = parseArray (fuel_for s) 0 s1.
Proof.
  intros H. apply nextToken_length in H. unfold fuel_for.
  destruct (parse_fuel (3 * String.length s + 3 + more)) as (_ & HO & _ & HA & _).
  split; [apply HO | apply HA]; lia.
Qed.

End Fuel.

(** ** The QMP codec *)

Section Codec.

Import QJsonParser QJsonWriter.

Lemma parse_escaped_char (c : ascii) (tail : string) :
  parseString (escapedChar c ++ tail) = prepend (String c EmptyString) (parseString tail).
Proof.
  destruct c as [[|] [|] [|] [|] [|] [|] [|] [|]]; reflexivity.
Qed.

(** Reading back an escaped string up to its closing quote gives the string. *)
Lemma parse_escaped_string (s rest : string) :
  parseString (escapedString s ++ String dquote rest) = Some (s, rest).
Proof.
  induction s as [|c s IH]; [reflexivity|].
  cbn [escapedString]. rewrite append_assoc, parse_escaped_char, IH. reflexivity.
Qed.

Lemma fuel_for_long (a b : ascii) (r : string) :
  fuel_for (String a (String b r)) = S (S (S (S (S (S (3 * String.length r + 3)))))).
Proof. unfold fuel_for. cbn [String.length]. lia. Qed.

(** The equations of the parser, one call at a time. *)
Lemma parseValue_string (fuel : nat) (depth : N) (s rest : string) :
  parseValue (S fuel) depth (String dquote (escapedString s ++ String dquote rest))
  = Some (JString s, rest).
Proof. cbn [parseValue]. cbn -[parseString]. now rewrite parse_escaped_string. Qed.

Lemma parseValue_quoted (fuel : nat) (depth : N) (s : string) :
  parseValue (S fuel) depth (String dquote s)
  = match parseString s with
    | Some (str, rest) => Some (JString str, rest)
    | None => None
    end.
Proof. reflexivity. Qed.

Lemma parseValue_object (fuel : nat) (depth : N) (s : string) :
  parseValue (S fuel) depth (String "{" s)
  = match parseObject fuel depth s with
    | Some (o, rest) => Some (JObject o, rest)
    | None => None
    end.
Proof. reflexivity. Qed.

Lemma parseObject_members (fuel : nat) (depth : N) (s s1 : string) :
  (nestingLimit <? depth + 1)%N = false ->
  nextToken s = Some (dquote, s1) ->
  parseObject (S fuel) depth s = parseMembers fuel (depth + 1) s1 [].
Proof.
  intros H Ht. cbn [parseObject]. rewrite H, Ht. reflexivity.
Qed.

Lemma parseMembers_unfold (fuel : nat) (depth : N) (s : string) (acc : QJsonObject) :
  parseMembers (S fuel) depth s acc
  = match parseString s with
    | None => None
    | Some (key, s1) =>
        match nextToken s1 with
        | Some (t, s2) =>
            if negb (Ascii.eqb t ":") then None
            else
              match eatSpace s2 with
              | EmptyString => None
              | s3 =>
                  match parseValue fuel depth s3 with
                  | None => None
                  | Some (v, s4) =>
                      let acc' := QJson.insert key v acc in
                      match nextToken s4 with
                      | Some (t', s5) =>
                          if Ascii.eqb t' "," then
                            match nextToken s5 with
                            | Some (t'', s6) =>
                                if Ascii.eqb t'' dquote
                                then parseMembers fuel depth s6 acc'
                                else None
                            | None => None
                            end
                          else if Ascii.eqb t' "}" then Some (acc', s5)
                          else None
                      | None => None
                      end
                  end
              end
        | None => None
        end
    end.
Proof. reflexivity. Qed.

Ltac tokens :=
  cbn -[parseValue parseObject parseMembers parseArray parseElements escapedString
        Nat.add Nat.mul String.length fuel_for];
  fold dquote.

Ltac enter_object :=
  match goal with
  | |- context [parseObject (S ?f) ?d ?s] =>
      match eval cbn -[escapedString] in (nextToken s) with
      | Some (_, ?s1) => rewrite (parseObject_members f d s s1 eq_refl eq_refl)
      end
  end.

Lemma qmp_execute_json_text (cmd : QString) :
  qmp_execute_json cmd
  = "{" ++ nl ++ "    " ++ dq ++ "execute" ++ dq ++ ": "
    ++ dq ++ escapedString cmd ++ dq ++ nl ++ "}" ++ nl.
Proof.
  unfold qmp_execute_json, toJson, toJsonFormat. cbn.
  rewrite !append_assoc. reflexivity.
Qed.

Lemma fromJson_qmp_execute_json (cmd : QString) :
  fromJson (qmp_execute_json cmd) = DocObject [("execute", JString cmd)].
Proof.
  rewrite qmp_execute_json_text. unfold fromJson. tokens.
  rewrite fuel_for_long.
  enter_object.
  rewrite parseMembers_unfold. tokens.
  rewrite parseValue_string. tokens. reflexivity.
Qed.

Lemma human_monitor_command_object :
  object (fromJson (qmp_execute_json "human-monitor-command"))
  = [("execute", JString "human-monitor-command")].
Proof. rewrite fromJson_qmp_execute_json. reflexivity. Qed.

Lemma hmc_to_qmp_json_text (command_line : QString) :
  hmc_to_qmp_json command_line
  = "{" ++ nl ++ "    " ++ dq ++ "arguments" ++ dq ++ ": {" ++ nl
    ++ "        " ++ dq ++ "command-line" ++ dq ++ ": "
    ++ dq ++ escapedString command_line ++ dq ++ nl
    ++ "    }," ++ nl
    ++ "    " ++ dq ++ "execute" ++ dq ++ ": " ++ dq ++ "human-monitor-command" ++ dq ++ nl
    ++ "}" ++ nl.
Proof.
  unfold hmc_to_qmp_json. rewrite human_monitor_command_object.
  unfold toJson, toJsonFormat. cbn.
  rewrite !append_assoc. reflexivity.
Qed.

Lemma fromJson_hmc_to_qmp_json (command_line : QString) :
  fromJson (hmc_to_qmp_json command_line)
  = DocObject [("arguments", JObject [("command-line", JString command_line)]);
               ("execute", JString "human-monitor-command")].
Proof.
  rewrite hmc_to_qmp_json_text. unfold fromJson. tokens.
  rewrite fuel_for_long.
  enter_object.
  rewrite parseMembers_unfold. tokens.
  rewrite parseValue_object. enter_object.
  rewrite parseMembers_unfold. tokens.
  rewrite parseValue_string. tokens.
  rewrite parseMembers_unfold. tokens.
  rewrite parseValue_quoted. tokens. reflexivity.
Qed.
(** C7: encoding a command gives the indented JSON text of the object
    [{"execute": cmd}], which spans several lines; the monitor wrapper adds
    the member ["arguments"] holding the command line.  Decoding an encoded
    command gives back an object whose [execute] member is the command and
    whose arguments are the ones supplied. *)
Theorem qmp_encoding_round_trip :
  (forall cmd : QString,
     qmp_execute_json cmd
     = "{" ++ nl ++ "    " ++ dq ++ "execute" ++ dq ++ ": "
       ++ dq ++ escapedString cmd ++ dq ++ nl ++ "}" ++ nl
     /\ single_line (qmp_execute_json cmd) = false
     /\ fromJson (qmp_execute_json cmd) = DocObject [("execute", JString cmd)]
     /\ QJson.value (object (fromJson (qmp_execute_json cmd))) "execute" = JString cmd) /\
  (forall command_line : QString,
     single_line (hmc_to_qmp_json command_line) = false
     /\ fromJson (hmc_to_qmp_json command_line)
        = DocObject [("arguments", JObject [("command-line", JString command_line)]);
                     ("execute", JString "human-monitor-command")]
     /\ QJson.value (object (fromJson (hmc_to_qmp_json command_line))) "execute"
        = JString "human-monitor-command"
     /\ QJson.value (object (fromJson (hmc_to_qmp_json command_line))) "arguments"
        = JObject [("command-line", JString command_line)]).
Proof.
  split.
  - intros cmd. split; [apply qmp_execute_json_text|].
    split; [rewrite qmp_execute_json_text; reflexivity|].
    rewrite fromJson_qmp_execute_json. split; reflexivity.
  - intros command_line.
    split; [rewrite hmc_to_qmp_json_text; reflexivity|].
    rewrite fromJson_hmc_to_qmp_json. repeat split.
Qed.

End Codec.

(** The commands the backend writes are not single lines: each is the opening
    brace, one line per member and the closing brace. *)
Lemma qmp_commands_span_several_lines :
  single_line (qmp_execute_json "qmp_capabilities") = false
  /\ Qt.split newline (qmp_execute_json "qmp_capabilities")
     = ["{";
        "    " ++ dq ++ "execute" ++ dq ++ ": " ++ dq ++ "qmp_capabilities" ++ dq;
        "}";
        EmptyString]
  /\ single_line (hmc_to_qmp_json "savevm suspend") = false.
Proof. vm_compute. repeat split. Qed.

(** * Further properties of the backend *)

(** Takes the object apart and runs the members named in the goal. *)
Ltac run_on vm :=
  destruct vm as [st name d tp mac user ci addr msg uss dms proc];
  unfold stop, shutdown, suspend, ipv4, started_handler, on_started,
    ready_read_standard_error_handler, state_changed_handler, finished_handler,
    on_shutdown, on_shutdown_woken, on_shutdown_rest, ensure_vm_is_running,
    error_occurred_handler, on_error, on_restart, on_suspend, current_state;
  run_member.

Section Suspend.

Local Opaque qmp_execute_json hmc_to_qmp_json.

(** X1: [suspend] by state.  With the child running in state [running] or
    [delayed_shutdown] it writes the [savevm suspend] monitor command; when
    [update_shutdown_status] is set it also enters [suspending], persists that
    state, clears the flag and waits for the child to finish, and otherwise it
    does nothing more.  In state [off] or [suspended] it only logs and tells
    the monitor [on_suspend].  In every other state, and when the child is not
    running, it does nothing at all. *)
Theorem suspend_by_state (vm : QemuVirtualMachine) (is_running : bool) :
  (forall p, vm_process vm = Some p -> is_running = true ->
   state vm = running \/ state vm = delayed_shutdown ->
   suspend is_running vm
   = if update_shutdown_status vm
     then (returns tt, set_update_shutdown_status false (set_state suspending vm),
           [process_write (hmc_to_qmp_json "savevm suspend");
            persist_state_for (vm_name vm) suspending;
            process_wait_for_finished])
     else (returns tt, vm, [process_write (hmc_to_qmp_json "savevm suspend")])) /\
  (state vm = off \/ state vm = suspended ->
   suspend is_running vm
   = (returns tt, vm,
      [log info (vm_name vm) "Ignoring suspend issued while stopped/suspended";
       monitor_on_suspend])) /\
  (state vm = starting \/ state vm = restarting \/ state vm = suspending
   \/ state vm = unknown ->
   suspend is_running vm = (returns tt, vm, [])) /\
  (forall p, vm_process vm = Some p -> is_running = false ->
   state vm = running \/ state vm = delayed_shutdown ->
   suspend is_running vm = (returns tt, vm, [])).
Proof.
  run_on vm. refine (conj _ (conj _ (conj _ _))).
  - intros p -> -> [ -> | -> ]; destruct uss; reflexivity.
  - intros [ -> | -> ]; reflexivity.
  - intros [ -> | [ -> | [ -> | -> ] ] ]; reflexivity.
  - intros p -> -> [ -> | -> ]; reflexivity.
Qed.

End Suspend.

Lemma suspend_by_state_witness :
  suspend true (sample_vm running)
  = (returns tt, set_update_shutdown_status false (set_state suspending (sample_vm running)),
     [process_write (hmc_to_qmp_json "savevm suspend");
      persist_state_for "primary" suspending;
      process_wait_for_finished])
  /\ suspend true (sample_vm off)
     = (returns tt, sample_vm off,
        [log info "primary" "Ignoring suspend issued while stopped/suspended";
         monitor_on_suspend])
  /\ suspend true (sample_vm starting) = (returns tt, sample_vm starting, [])
  /\ suspend false (sample_vm running) = (returns tt, sample_vm running, []).
Proof.
  refine (conj _ (conj _ (conj _ _))).
  - apply (proj1 (suspend_by_state (sample_vm running) true) sample_process);
      [reflexivity | reflexivity | left; reflexivity].
  - apply (proj1 (proj2 (suspend_by_state (sample_vm off) true))). left. reflexivity.
  - apply (proj1 (proj2 (proj2 (suspend_by_state (sample_vm starting) true)))).
    left. reflexivity.
  - apply (proj2 (proj2 (proj2 (suspend_by_state (sample_vm running) false))) sample_process);
      [reflexivity | reflexivity | left; reflexivity].
Defined.

Section Destruction.

Local Opaque qmp_execute_json hmc_to_qmp_json.

Variable run_cmd_for_status : string -> list string -> bool.


(** X3: what the destructor does to a machine that has a child process, in
    order: in state [running] the [savevm suspend] command when the child
    runs and nothing otherwise; in state [suspended] only a log line; in
    state [delayed_shutdown] or [unknown] with the child running a
    [system_powerdown] and a wait; in every other case a kill and a wait;
    then the removal of the tap device; then a last wait for the child. *)
Theorem destructor_actions (is_running : bool) (vm : QemuVirtualMachine) (p : Process) :
  vm_process vm = Some p ->
  let first :=
    match state vm with
    | suspended => [log info (vm_name vm) "Ignoring shutdown issued while suspended"]
    | running =>
        if is_running then [process_write (hmc_to_qmp_json "savevm suspend")] else []
    | delayed_shutdown | unknown =>
        if is_running
        then [process_write (qmp_execute_json "system_powerdown"); process_wait_for_finished]
        else [process_kill; process_wait_for_finished]
    | _ => [process_kill; process_wait_for_finished]
    end in
  QemuVirtualMachine_dtor run_cmd_for_status is_running vm
  = (returns tt, set_update_shutdown_status false vm,
     (map backend first
      ++ remove_tap_device run_cmd_for_status (tap_device_name vm)
      ++ [backend process_wait_for_finished])%list).
Proof.
  destruct vm as [st name d tp mac user ci addr msg uss dms proc].
  cbn [vm_process]. intros ->. cbv zeta.
  unfold QemuVirtualMachine_dtor, suspend, shutdown. run_member.
  destruct st, is_running; reflexivity.
Qed.

End Destruction.

Lemma destructor_actions_witness :
  QemuVirtualMachine_dtor (fun _ _ => true) true (sample_vm running)
  = (returns tt, set_update_shutdown_status false (sample_vm running),
     [backend (process_write (hmc_to_qmp_json "savevm suspend"));
      host_command "ip" ["addr"; "show"; "tap-0123"];
      host_command "ip" ["link"; "delete"; "tap-0123"];
      backend process_wait_for_finished]).
Proof.
  apply (destructor_actions (fun _ _ => true) true (sample_vm running) sample_process).
  reflexivity.
Defined.

Section Address.

(** X4: [ipv4] returns the cached address without asking the DHCP server;
    without a cached address and without a lease it returns [UNKNOWN] and
    caches nothing; and the first lease it sees is cached, so a later call
    returns that address whatever the server answers then. *)
Theorem ipv4_caches_first_lease (vm : QemuVirtualMachine) (lease later : option string)
    (a : string) :
  (ip vm = Some a -> ipv4 lease vm = (returns a, vm, [])) /\
  (ip vm = None -> ipv4 None vm = (returns "UNKNOWN", vm, [])) /\
  (ip vm = None -> lease = Some a ->
   ipv4 lease vm = (returns a, set_ip (Some a) vm, [])
   /\ ipv4 later (object_of (ipv4 lease vm)) = (returns a, set_ip (Some a) vm, [])).
Proof.
  run_on vm. refine (conj _ (conj _ _)).
  - intros ->. reflexivity.
  - intros ->. reflexivity.
  - intros -> ->. split; reflexivity.
Qed.

(** A step that returns without touching the object or acting can be dropped. *)
Lemma bind_silent {A B} (m : M A) (k : A -> M B) (vm : QemuVirtualMachine) (a : A) :
  m vm = (returns a, vm, []) -> bind m k vm = k a vm.
Proof.
  intros H. unfold bind. rewrite H. destruct (k a vm) as [[r vm'] fx]. reflexivity.
Qed.

(** An attempt that finds the child running and no lease changes nothing. *)
Lemma ssh_hostname_action_retry (vm : QemuVirtualMachine) (p : Process) :
  vm_process vm = Some p ->
  ssh_hostname_action true None vm = (returns retry, vm, []).
Proof.
  destruct vm as [st name d tp mac user ci addr msg uss dms proc].
  cbn [vm_process]. intros ->. reflexivity.
Qed.

Lemma try_action_for_after_retries (k : nat) (rest : list (bool * option string))
    (e : exception) (vm : QemuVirtualMachine) (p : Process) :
  vm_process vm = Some p ->
  try_action_for e
    (map (fun o => ssh_hostname_action (fst o) (snd o)) (repeat (true, None) k ++ rest)%list) vm
  = try_action_for e (map (fun o => ssh_hostname_action (fst o) (snd o)) rest) vm.
Proof.
  intros Hp. induction k as [|k IH]; [reflexivity|].
  cbn [repeat app map try_action_for fst snd].
  rewrite (bind_silent _ _ vm retry (ssh_hostname_action_retry vm p Hp)). exact IH.
Qed.

(** X5: [ssh_hostname] returns a cached address at once.  Without one, after
    any number of attempts that find the child running and no lease, the
    first lease is cached and returned, and an attempt that finds the child
    dead marks the machine [off], wakes the waiters and throws the start
    exception with the saved error message, lease or no lease. *)
Theorem ssh_hostname_outcomes (vm : QemuVirtualMachine) (k : nat)
    (rest : list (bool * option string)) (a : string) (lease : option string) :
  (ip vm = Some a ->
   ssh_hostname rest vm = (returns (Some a), vm, [])) /\
  (forall p, vm_process vm = Some p -> ip vm = None ->
   ssh_hostname (repeat (true, None) k ++ (true, Some a) :: rest)%list vm
   = (returns (Some a), set_ip (Some a) vm, [])) /\
  (forall p, vm_process vm = Some p -> ip vm = None ->
   ssh_hostname (repeat (true, None) k ++ (false, lease) :: rest)%list vm
   = (throws (StartException (vm_name vm) (saved_error_msg vm)),
      set_state off vm, [state_wait_notify_all])).
Proof.
  refine (conj _ (conj _ _)).
  - destruct vm as [st name d tp mac user ci addr msg uss dms proc].
    cbn [ip]. intros ->. reflexivity.
  - intros p Hp Hip. unfold ssh_hostname. unfold bind at 1. unfold read at 1.
    rewrite Hip. unfold bind at 1.
    rewrite (try_action_for_after_retries k _ _ vm p Hp).
    destruct vm as [st name d tp mac user ci addr msg uss dms proc].
    cbn [vm_process ip] in Hp, Hip. subst. reflexivity.
  - intros p Hp Hip. unfold ssh_hostname. unfold bind at 1. unfold read at 1.
    rewrite Hip. unfold bind at 1.
    rewrite (try_action_for_after_retries k _ _ vm p Hp).
    destruct vm as [st name d tp mac user ci addr msg uss dms proc].
    cbn [vm_process ip] in Hp, Hip. subst. destruct lease; reflexivity.
Qed.

End Address.

Lemma ssh_hostname_outcomes_witness :
  ssh_hostname [(true, None); (true, None); (true, Some "10.122.80.17"); (false, None)]
    (sample_vm starting)
  = (returns (Some "10.122.80.17"), set_ip (Some "10.122.80.17") (sample_vm starting), [])
  /\ ssh_hostname [(true, None); (false, Some "10.122.80.17")] (sample_vm starting)
     = (throws (StartException "primary" EmptyString), set_state off (sample_vm starting),
        [state_wait_notify_all])
  /\ ssh_hostname [] (set_ip (Some "10.122.80.17") (sample_vm off))
     = (returns (Some "10.122.80.17"), set_ip (Some "10.122.80.17") (sample_vm off), []).
Proof.
  split; [|split].
  - apply (proj1 (proj2 (ssh_hostname_outcomes (sample_vm starting) 2 [(false, None)]
                           "10.122.80.17" None)) sample_process); reflexivity.
  - apply (proj2 (proj2 (ssh_hostname_outcomes (sample_vm starting) 1 []
                           "10.122.80.17" (Some "10.122.80.17"))) sample_process); reflexivity.
  - apply (proj1 (ssh_hostname_outcomes (set_ip (Some "10.122.80.17") (sample_vm off)) 0 []
                    "10.122.80.17" None)). reflexivity.
Defined.

Lemma ipv4_caches_first_lease_witness :
  ipv4 (Some "10.122.80.99")
    (object_of (ipv4 (Some "10.122.80.17") (sample_vm running)))
  = (returns "10.122.80.17", set_ip (Some "10.122.80.17") (sample_vm running), []).
Proof.
  apply (proj2 (proj2 (ipv4_caches_first_lease (sample_vm running) (Some "10.122.80.17")
                         (Some "10.122.80.99") "10.122.80.17"))); reflexivity.
Defined.

Section StartErrors.

(** X6: of two chunks the child writes to its standard error, both are logged
    as warnings but only the later one is kept, and it is the message of the
    start exception [ensure_vm_is_running] throws once the child is dead. *)
Theorem start_exception_carries_last_stderr
    (vm : QemuVirtualMachine) (p : Process) (earlier latest : QByteArray) :
  vm_process vm = Some p ->
  (ready_read_standard_error_handler earlier ;;
   ready_read_standard_error_handler latest ;;
   ensure_vm_is_running false) vm
  = (throws (StartException (vm_name vm) (c_str latest)),
     set_state off (set_saved_error_msg (c_str latest) vm),
     [log warning (vm_name vm) (c_str earlier);
      log warning (vm_name vm) (c_str latest);
      state_wait_notify_all]).
Proof.
  run_on vm. cbn [vm_process]. intros ->. reflexivity.
Qed.

End StartErrors.

Lemma start_exception_carries_last_stderr_witness :
  value_of ((ready_read_standard_error_handler "qemu: warning" ;;
             ready_read_standard_error_handler "qemu: could not open disk image" ;;
             ensure_vm_is_running false) (sample_vm starting))
  = throws (StartException "primary" "qemu: could not open disk image").
Proof.
  rewrite (start_exception_carries_last_stderr (sample_vm starting) sample_process
             "qemu: warning" "qemu: could not open disk image" eq_refl).
  reflexivity.
Defined.

Section ObjectLookup.

Lemma compare_refl (k : string) : String.compare k k = Eq.
Proof.
  induction k as [|c k IH]; [reflexivity|].
  cbn [String.compare]. unfold Ascii.compare. now rewrite N.compare_refl.
Qed.

Lemma compare_not_eq (k k' : string) :
  String.compare k k' <> Eq -> String.eqb k' k = false.
Proof.
  intros H. apply String.eqb_neq. intros ->. apply H, compare_refl.
Qed.

(** Looking up the key just given to [insert_sorted] finds the value given. *)
Lemma value_insert_sorted_same (o : QJsonObject) (k : QString) (v : QJsonValue) :
  QJson.value (QJson.insert_sorted k v o) k = v.
Proof.
  induction o as [|[k0 w] o IH]; cbn [QJson.insert_sorted QJson.value].
  - now rewrite String.eqb_refl.
  - destruct (String.compare k k0) eqn:E; cbn [QJson.value].
    + now rewrite String.eqb_refl.
    + now rewrite String.eqb_refl.
    + rewrite (compare_not_eq k k0) by congruence. exact IH.
Qed.

(** Looking up another key is not affected by [insert_sorted]. *)
Lemma value_insert_sorted_other (o : QJsonObject) (k k' : QString) (v : QJsonValue) :
  k <> k' -> QJson.value (QJson.insert_sorted k v o) k' = QJson.value o k'.
Proof.
  intros Hne. apply String.eqb_neq in Hne.
  induction o as [|[k0 w] o IH]; cbn [QJson.insert_sorted QJson.value].
  - now rewrite Hne.
  - destruct (String.compare k k0) eqn:E; cbn [QJson.value].
    + rewrite Hne. apply String.compare_eq_iff in E. subst k0. now rewrite Hne.
    + now rewrite Hne.
    + now rewrite IH.
Qed.

Lemma not_contains_value (o : QJsonObject) (key : QString) :
  QJson.contains o key = false -> QJson.value o key = JUndefined.
Proof.
  induction o as [|[k v] o IH]; simpl; [reflexivity|].
  destruct (String.eqb k key); simpl; [discriminate|auto].
Qed.

(** The non-const [operator[]] reads what the const one reads, up to the
    difference between a null and an undefined value. *)
Lemma ref_value (o : QJsonObject) (key : QString) :
  fst (QJson.ref o key)
  = match QJson.value o key with JUndefined => if QJson.contains o key then JUndefined else JNull | v => v end.
Proof.
  unfold QJson.ref. destruct (QJson.contains o key) eqn:E; cbn [fst].
  - destruct (QJson.value o key); reflexivity.
  - now rewrite (not_contains_value o key E).
Qed.

Lemma ref_toString (o : QJsonObject) (key : QString) :
  QJson.toString (fst (QJson.ref o key)) = QJson.toString (QJson.value o key).
Proof.
  rewrite ref_value. destruct (QJson.value o key); try reflexivity.
  destruct (QJson.contains o key); reflexivity.
Qed.

Lemma ref_toBool (o : QJsonObject) (key : QString) :
  QJson.toBool (fst (QJson.ref o key)) = QJson.toBool (QJson.value o key).
Proof.
  rewrite ref_value. destruct (QJson.value o key); try reflexivity.
  destruct (QJson.contains o key); reflexivity.
Qed.

Lemma ref_toObject (o : QJsonObject) (key : QString) :
  QJson.toObject (fst (QJson.ref o key)) = QJson.toObject (QJson.value o key).
Proof.
  rewrite ref_value. destruct (QJson.value o key); try reflexivity.
  destruct (QJson.contains o key); reflexivity.
Qed.

(** ... and leaves the other members as they were. *)
Lemma ref_other (o : QJsonObject) (key key' : QString) :
  key <> key' -> QJson.value (snd (QJson.ref o key)) key' = QJson.value o key'.
Proof.
  intros Hne. unfold QJson.ref. destruct (QJson.contains o key); cbn [snd]; [reflexivity|].
  unfold QJson.insert. now apply value_insert_sorted_other.
Qed.

End ObjectLookup.

Section Starting.

Local Opaque qmp_execute_json hmc_to_qmp_json.

(** What the resume-only part of [start] computes. *)
Lemma resume_arguments_run (host : Host) (vm : QemuVirtualMachine) :
  let metadata := retrieve_metadata_for host (vm_name vm) in
  value_of (resume_arguments host vm)
  = returns (["-loadvm"; "suspend"; "-machine"; resumed_machine_type metadata]
             ++ cloud_init_arguments metadata (cloud_init_path vm),
             get_vm_command_version metadata)%list
  /\ object_of (resume_arguments host vm)
     = set_delete_memory_snapshot true (set_update_shutdown_status true vm)
  /\ filter (fun e => reaches_monitor e || acts_on_process e)
       (effects_of (resume_arguments host vm)) = [].
Proof.
  destruct vm as [st name d tp mac user ci addr msg uss dms proc].
  cbv zeta. unfold resume_arguments, resumed_machine_type, cloud_init_arguments. run_member.
  pose proof (ref_toString (retrieve_metadata_for host name) machine_type_key) as Hs.
  pose proof (ref_toBool (snd (QJson.ref (retrieve_metadata_for host name) machine_type_key))
                "use_cdrom") as Hb.
  rewrite (ref_other _ machine_type_key "use_cdrom") in Hb by discriminate.
  destruct (QJson.ref (retrieve_metadata_for host name) machine_type_key) as [mv md].
  cbn [fst snd] in Hs, Hb.
  destruct (QJson.value (retrieve_metadata_for host name) machine_type_key);
    destruct mv; try discriminate Hs; run_member;
    try (injection Hs as ->); rewrite Hb;
    destruct (QJson.toBool (QJson.value (retrieve_metadata_for host name) "use_cdrom"));
    repeat split.
Qed.


(** A start from [suspended], run. *)
Lemma start_resuming_run (host : Host) (vm : QemuVirtualMachine) :
  state vm = suspended ->
  let metadata := retrieve_metadata_for host (vm_name vm) in
  let process :=
    create_process host (vm_desc vm) (get_vm_command_version metadata)
      (tap_device_name vm) (mac_addr vm) in
  let r := start host vm in
  object_of r
  = set_vm_process (Some process)
      (set_delete_memory_snapshot true (set_update_shutdown_status true vm))
  /\ value_of r
     = (if wait_for_started host then returns tt
        else throws (runtime_error "failed to start qemu instance"))
  /\ filter acts_on_process (effects_of r)
     = process_start
         (["-loadvm"; "suspend"; "-machine"; resumed_machine_type metadata]
          ++ cloud_init_arguments metadata (cloud_init_path vm))%list
       :: (if wait_for_started host
           then [process_write (qmp_execute_json "qmp_capabilities")] else [])
  /\ filter reaches_monitor (effects_of r) = [].
Proof.
  intros Hst. destruct (resume_arguments_run host vm) as (Hv & Ho & Hf).
  destruct vm as [st name d tp mac user ci addr msg uss dms proc].
  cbn [state] in Hst. subst st. cbv zeta.
  unfold start. run_member.
  unfold value_of, object_of, effects_of in Hv, Ho, Hf.
  cbn [vm_name cloud_init_path] in Hv, Ho, Hf.
  destruct (resume_arguments host _) as [[r vm1] fx1].
  cbn [fst snd] in Hv, Ho, Hf. subst r vm1. run_member.
  assert (Hm : filter reaches_monitor fx1 = [] /\ filter acts_on_process fx1 = []).
  { clear - Hf. induction fx1 as [|e fx IH]; [split; reflexivity|].
    cbn [filter] in *. destruct (reaches_monitor e), (acts_on_process e);
      cbn [orb] in Hf; try discriminate Hf; apply IH, Hf. }
  destruct Hm as [Hm Hp].
  destruct (wait_for_started host); run_member;
    rewrite !filter_app, Hm, Hp; repeat split.
Qed.

(** X7: a start from [suspended] creates the child with the command version of
    the stored metadata and starts it with [-loadvm suspend], [-machine] and
    the stored machine type (the default when no string is stored) and the
    cloud-init image as [-cdrom] or as [-drive], by [use_cdrom]; it sets
    [update_shutdown_status] and [delete_memory_snapshot], writes
    [qmp_capabilities] only if the child started, throws otherwise, and
    writes nothing to the status monitor. *)
Theorem start_from_suspended (host : Host) (vm : QemuVirtualMachine) :
  state vm = suspended ->
  let metadata := retrieve_metadata_for host (vm_name vm) in
  let process :=
    create_process host (vm_desc vm) (get_vm_command_version metadata)
      (tap_device_name vm) (mac_addr vm) in
  let r := start host vm in
  object_of r
  = set_vm_process (Some process)
      (set_delete_memory_snapshot true (set_update_shutdown_status true vm))
  /\ value_of r
     = (if wait_for_started host then returns tt
        else throws (runtime_error "failed to start qemu instance"))
  /\ filter acts_on_process (effects_of r)
     = process_start
         (["-loadvm"; "suspend"; "-machine"; resumed_machine_type metadata]
          ++ cloud_init_arguments metadata (cloud_init_path vm))%list
       :: (if wait_for_started host
           then [process_write (qmp_execute_json "qmp_capabilities")] else [])
  /\ filter reaches_monitor (effects_of r) = [].
Proof. exact (start_resuming_run host vm). Qed.

(** X8: when the metadata stored for a suspended machine is what a cold start
    generated on a host whose probe found a machine type, the resuming start
    creates the child with the latest command version and starts it with
    that machine type and the cloud-init image as a [-drive]. *)
Theorem resume_after_cold_start (first_host host : Host) (vm : QemuVirtualMachine)
    (mt : QString) :
  state vm = suspended ->
  get_qemu_machine_type first_host = Some mt ->
  retrieve_metadata_for host (vm_name vm) = generate_metadata first_host ->
  vm_process (object_of (start host vm))
  = Some (create_process host (vm_desc vm) latest_vm_command_version
            (tap_device_name vm) (mac_addr vm))
  /\ filter acts_on_process (effects_of (start host vm))
     = process_start
         ["-loadvm"; "suspend"; "-machine"; mt; "-drive";
          "file=" ++ cloud_init_path vm ++ ",if=virtio,format=raw,snapshot=off,read-only"]
       :: (if wait_for_started host
           then [process_write (qmp_execute_json "qmp_capabilities")] else []).
Proof.
  intros Hst Hmt Hmd.
  destruct (start_resuming_run host vm Hst) as (Ho & _ & Hp & _).
  rewrite Ho, Hp, Hmd. unfold generate_metadata. rewrite Hmt. split; reflexivity.
Qed.

(** X9: a start from any state but [running], [suspending] and [suspended]
    stores freshly generated metadata, creates the child with the latest
    command version and starts it without extra arguments; the members other
    than [vm_process] keep their values; [qmp_capabilities] is written only
    if the child started, and the start throws otherwise. *)
Theorem start_from_stopped (host : Host) (vm : QemuVirtualMachine) :
  state vm <> running -> state vm <> suspending -> state vm <> suspended ->
  let process :=
    create_process host (vm_desc vm) latest_vm_command_version
      (tap_device_name vm) (mac_addr vm) in
  let r := start host vm in
  object_of r = set_vm_process (Some process) vm
  /\ value_of r
     = (if wait_for_started host then returns tt
        else throws (runtime_error "failed to start qemu instance"))
  /\ filter acts_on_process (effects_of r)
     = process_start []
       :: (if wait_for_started host
           then [process_write (qmp_execute_json "qmp_capabilities")] else [])
  /\ filter reaches_monitor (effects_of r)
     = [update_metadata_for (vm_name vm) (generate_metadata host)].
Proof.
  intros H1 H2 H3. destruct vm as [st name d tp mac user ci addr msg uss dms proc].
  cbn [state] in H1, H2, H3. cbv zeta. unfold start. run_member.
  destruct st; try congruence; run_member;
    destruct (wait_for_started host); repeat split.
Qed.

End Starting.

Lemma start_from_suspended_witness :
  filter acts_on_process
    (effects_of (start (sample_host_with [("use_cdrom", JBool true)] None true)
                   (sample_vm suspended)))
  = [process_start ["-loadvm"; "suspend"; "-machine"; "pc-i440fx-xenial"; "-cdrom";
                    "/var/images/cloud-init-config.iso"];
     process_write (qmp_execute_json "qmp_capabilities")].
Proof.
  apply (start_from_suspended (sample_host_with [("use_cdrom", JBool true)] None true)
           (sample_vm suspended)).
  reflexivity.
Defined.

Lemma resume_after_cold_start_witness :
  filter acts_on_process
    (effects_of
       (start (sample_host_with
                 (generate_metadata (sample_host_with [] (Some sample_dump) true)) None true)
          (sample_vm suspended)))
  = [process_start ["-loadvm"; "suspend"; "-machine"; "pc-i440fx-2.11"; "-drive";
                    "file=/var/images/cloud-init-config.iso,if=virtio,format=raw,snapshot=off,read-only"];
     process_write (qmp_execute_json "qmp_capabilities")].
Proof.
  exact (proj2 (resume_after_cold_start
                  (sample_host_with [] (Some sample_dump) true)
                  (sample_host_with
                     (generate_metadata (sample_host_with [] (Some sample_dump) true))
                     None true)
                  (sample_vm suspended) "pc-i440fx-2.11" eq_refl eq_refl eq_refl)).
Defined.

Lemma start_from_stopped_witness :
  filter reaches_monitor
    (effects_of (start (sample_host sample_listing sample_files true) (sample_vm off)))
  = [update_metadata_for "primary"
       [("machine_type", JString EmptyString); ("vm_command_version", JDouble 1 0)]].
Proof.
  apply (start_from_stopped (sample_host sample_listing sample_files true) (sample_vm off));
    discriminate.
Defined.

Section Probe.

(** X10: the machine-type probe returns the null string when the temporary
    file cannot be opened or when what was dumped reads as an object without
    members (as anything that is not a JSON object does), and otherwise the
    string under [Name] of the object under [vmschkmachine], null when there
    is none. *)
Theorem machine_type_probe (host : Host) :
  (dump_vmstate host = None -> get_qemu_machine_type host = None) /\
  (forall dumped, dump_vmstate host = Some dumped ->
     get_qemu_machine_type host
     = QJson.toString
         (QJson.value
            (QJson.toObject
               (QJson.value (object (QJsonParser.fromJson dumped)) "vmschkmachine"))
            "Name")) /\
  (forall dumped, dump_vmstate host = Some dumped ->
     object (QJsonParser.fromJson dumped) = [] -> get_qemu_machine_type host = None).
Proof.
  unfold get_qemu_machine_type. refine (conj _ (conj _ _)).
  - intros ->. reflexivity.
  - intros dumped ->. now rewrite ref_toString, ref_toObject.
  - intros dumped -> H. rewrite H. reflexivity.
Qed.

End Probe.

Lemma machine_type_probe_witness :
  get_qemu_machine_type (sample_host_with [] (Some sample_dump) true)
  = Some "pc-i440fx-2.11"
  /\ get_qemu_machine_type (sample_host_with [] (Some EmptyString) true) = None
  /\ get_qemu_machine_type (sample_host_with [] None true) = None.
Proof.
  refine (conj _ (conj _ _)).
  - rewrite (proj1 (proj2 (machine_type_probe (sample_host_with [] (Some sample_dump) true)))
               sample_dump eq_refl).
    reflexivity.
  - apply (proj2 (proj2 (machine_type_probe (sample_host_with [] (Some EmptyString) true)))
             EmptyString); reflexivity.
  - apply (proj1 (machine_type_probe (sample_host_with [] None true))). reflexivity.
Defined.

Section SshUp.

Local Opaque qmp_execute_json hmc_to_qmp_json.

(** X11: [wait_until_ssh_up] passes on an exception of the wait and then
    leaves the object and the effects as the wait left them; after a wait
    that returned it does nothing more unless [delete_memory_snapshot] is
    set, in which case it logs, writes [delvm suspend] to the child and clears
    the flag. *)
Theorem wait_until_ssh_up_outcomes (utils_wait : M unit) (vm : QemuVirtualMachine) :
  (forall e vm1 fx, utils_wait vm = (throws e, vm1, fx) ->
     wait_until_ssh_up utils_wait vm = (throws e, vm1, fx)) /\
  (forall vm1 fx, utils_wait vm = (returns tt, vm1, fx) ->
     delete_memory_snapshot vm1 = false ->
     wait_until_ssh_up utils_wait vm = (returns tt, vm1, fx)) /\
  (forall vm1 fx p, utils_wait vm = (returns tt, vm1, fx) ->
     delete_memory_snapshot vm1 = true -> vm_process vm1 = Some p ->
     wait_until_ssh_up utils_wait vm
     = (returns tt, set_delete_memory_snapshot false vm1,
        (fx ++ [log debug (vm_name vm1) "Deleted memory snapshot";
                process_write (hmc_to_qmp_json "delvm suspend")])%list)).
Proof.
  unfold wait_until_ssh_up. refine (conj _ (conj _ _)).
  - intros e vm1 fx H. unfold bind at 1. now rewrite H.
  - intros vm1 fx H Hd. unfold bind at 1. rewrite H.
    destruct vm1 as [st name d tp mac user ci addr msg uss dms proc].
    cbn [delete_memory_snapshot] in Hd. subst dms. run_member. now rewrite app_nil_r.
  - intros vm1 fx p H Hd Hp. unfold bind at 1. rewrite H.
    destruct vm1 as [st name d tp mac user ci addr msg uss dms proc].
    cbn [delete_memory_snapshot vm_process] in Hd, Hp. subst dms proc. run_member.
    reflexivity.
Qed.

(** X12: after a start from [suspended], the first [wait_until_ssh_up] that
    gets through deletes the memory snapshot and clears the flag, and a
    second one does nothing. *)
Theorem memory_snapshot_deleted_once (host : Host) (vm : QemuVirtualMachine) :
  state vm = suspended ->
  let resumed := object_of (start host vm) in
  let first := wait_until_ssh_up (ret tt) resumed in
  let second := wait_until_ssh_up (ret tt) (object_of first) in
  filter acts_on_process (effects_of first) = [process_write (hmc_to_qmp_json "delvm suspend")]
  /\ delete_memory_snapshot (object_of first) = false
  /\ second = (returns tt, object_of first, []).
Proof.
  intros Hst. destruct (start_resuming_run host vm Hst) as (Ho & _). cbv zeta.
  rewrite Ho. destruct vm as [st name d tp mac user ci addr msg uss dms proc].
  unfold wait_until_ssh_up. run_member. repeat split.
Qed.

End SshUp.

Lemma wait_until_ssh_up_outcomes_witness :
  wait_until_ssh_up (ret tt) (set_delete_memory_snapshot true (sample_vm running))
  = (returns tt, set_delete_memory_snapshot false (sample_vm running),
     [log debug "primary" "Deleted memory snapshot";
      process_write (hmc_to_qmp_json "delvm suspend")])
  /\ wait_until_ssh_up (throw (runtime_error "timed out")) (sample_vm running)
     = (throws (runtime_error "timed out"), sample_vm running, [])
  /\ wait_until_ssh_up (ret tt) (sample_vm running) = (returns tt, sample_vm running, []).
Proof.
  refine (conj _ (conj _ _)).
  - exact (proj2 (proj2 (wait_until_ssh_up_outcomes (ret tt)
                           (set_delete_memory_snapshot true (sample_vm running))))
             (set_delete_memory_snapshot true (sample_vm running)) [] sample_process
             eq_refl eq_refl eq_refl).
  - exact (proj1 (wait_until_ssh_up_outcomes (throw (runtime_error "timed out"))
                    (sample_vm running))
             (runtime_error "timed out") (sample_vm running) [] eq_refl).
  - exact (proj1 (proj2 (wait_until_ssh_up_outcomes (ret tt) (sample_vm running)))
             (sample_vm running) [] eq_refl eq_refl).
Defined.

Lemma memory_snapshot_deleted_once_witness :
  delete_memory_snapshot
    (object_of (wait_until_ssh_up (ret tt)
                  (object_of (start (sample_host sample_listing sample_files true)
                                (sample_vm suspended))))) = false.
Proof.
  apply (memory_snapshot_deleted_once (sample_host sample_listing sample_files true)
           (sample_vm suspended)).
  reflexivity.
Defined.

Section Events.

Local Opaque qmp_execute_json hmc_to_qmp_json QJsonParser.fromJson.

(** The handler, once the first line is known to carry the event [e]. *)
Lemma handler_on_event (chunk : QByteArray) (vm : QemuVirtualMachine) (e : QmpEvent) :
  first_event chunk = Some e ->
  ready_read_standard_output_handler chunk vm
  = (value_of (handle_event e vm), object_of (handle_event e vm),
     log debug (vm_name vm) (format "QMP: {}" [chunk]) :: effects_of (handle_event e vm)).
Proof.
  unfold first_event. intros He. rewrite handler_decodes_first_object.
  unfold decode_first_object, decode_line. rewrite He.
  unfold bind at 1. unfold mpl_log at 1. run_member.
  destruct (handle_event e vm) as [[r vm'] fx]. reflexivity.
Qed.

(** The handler, once the first line is known to carry no event. *)
Lemma handler_on_no_event (chunk : QByteArray) (vm : QemuVirtualMachine) :
  first_event chunk = None ->
  ready_read_standard_output_handler chunk vm
  = (returns tt, vm, [log debug (vm_name vm) (format "QMP: {}" [chunk])]).
Proof.
  unfold first_event. intros He. rewrite handler_decodes_first_object.
  unfold decode_first_object, decode_line. rewrite He. reflexivity.
Qed.

(** X13: a chunk whose first line carries the event [RESET] makes the handler
    log, enter [restarting], forget the address, persist the state and tell
    the monitor [on_restart], unless the state is [restarting] already, when
    it only logs the chunk. *)
Theorem reset_event_restarts (chunk : QByteArray) (vm : QemuVirtualMachine) :
  first_event chunk = Some RESET ->
  (state vm <> restarting ->
   ready_read_standard_output_handler chunk vm
   = (returns tt, set_ip None (set_state restarting vm),
      [log debug (vm_name vm) (format "QMP: {}" [chunk]);
       log info (vm_name vm) "VM restarting";
       persist_state_for (vm_name vm) restarting;
       monitor_on_restart (vm_name vm)])) /\
  (state vm = restarting ->
   ready_read_standard_output_handler chunk vm
   = (returns tt, vm, [log debug (vm_name vm) (format "QMP: {}" [chunk])])).
Proof.
  intros He. rewrite (handler_on_event chunk vm RESET He), (handle_event_cases RESET vm).
  split; intros Hst.
  - destruct (State_beq (state vm) restarting) eqn:E; [|reflexivity].
    apply internal_State_dec_bl in E. contradiction.
  - rewrite Hst. reflexivity.
Qed.

(** X14: the events [POWERDOWN], [SHUTDOWN] and [STOP], and [RESUME] in a
    state other than [suspending] and [running], are only logged: the handler
    returns, the object is unchanged and every effect is a log line. *)
Theorem other_events_only_log (chunk : QByteArray) (vm : QemuVirtualMachine) (e : QmpEvent) :
  first_event chunk = Some e ->
  e = POWERDOWN \/ e = SHUTDOWN \/ e = STOP
  \/ (e = RESUME /\ state vm <> suspending /\ state vm <> running) ->
  value_of (ready_read_standard_output_handler chunk vm) = returns tt
  /\ object_of (ready_read_standard_output_handler chunk vm) = vm
  /\ forallb is_log (effects_of (ready_read_standard_output_handler chunk vm)) = true.
Proof.
  intros He Hcase. rewrite (handler_on_event chunk vm e He), (handle_event_cases e vm).
  destruct Hcase as [ -> | [ -> | [ -> | ( -> & H1 & H2) ] ] ]; try (repeat split; reflexivity).
  destruct (state vm); try congruence; repeat split; reflexivity.
Qed.

End Events.

Lemma reset_event_restarts_witness :
  state (object_of (ready_read_standard_output_handler (qmp_event_line "RESET")
                      (sample_vm suspending))) = restarting.
Proof.
  rewrite (proj1 (reset_event_restarts (qmp_event_line "RESET") (sample_vm suspending)
                    eq_refl)); [reflexivity | discriminate].
Defined.

Lemma other_events_only_log_witness :
  object_of (ready_read_standard_output_handler (qmp_event_line "RESUME") (sample_vm starting))
  = sample_vm starting.
Proof.
  apply (other_events_only_log (qmp_event_line "RESUME") (sample_vm starting) RESUME eq_refl).
  right. right. right. repeat split; discriminate.
Defined.

Section Order.

Local Opaque qmp_execute_json hmc_to_qmp_json QJsonParser.fromJson.

(** [start] changes neither the state nor the name and notifies nobody of a
    change of state. *)
Lemma start_notifies_nothing (host : Host) (vm : QemuVirtualMachine) (n : string) (s : State) :
  persisted_before_notified n s false (effects_of (start host vm)) = true.
Proof.
  destruct vm as [st name d tp mac user ci addr msg uss dms proc].
  unfold start. run_member.
  destruct st; run_member; try reflexivity;
    try (destruct (wait_for_started host); reflexivity).
  unfold resume_arguments. run_member.
  destruct (QJson.ref (retrieve_metadata_for host name) machine_type_key) as [mv md].
  destruct (QJson.toString mv); run_member; destruct (wait_for_started host); reflexivity.
Qed.

(** X15: in whatever any operation or signal handler does, each of the
    notifications [on_resume], [on_shutdown] and [on_restart] comes right
    after [persist_state_for] called with the machine's name and the state
    the call ends in. *)
Theorem state_is_persisted_before_monitor_is_notified (c : Call) (vm : QemuVirtualMachine) :
  persisted_before_notified (vm_name vm) (state (fst (perform c vm))) false
    (snd (perform c vm)) = true.
Proof.
  destruct c; cbn [perform fst snd].
  - apply start_notifies_nothing.
  - run_on vm. destruct st, proc, is_running; reflexivity.
  - run_on vm. destruct st, proc, is_running; reflexivity.
  - run_on vm. destruct st, proc, is_running, uss; reflexivity.
  - reflexivity.
  - run_on vm. destruct addr, lease; reflexivity.
  - run_on vm. destruct proc, is_running; reflexivity.
  - run_on vm. cbn -[String.eqb]. now rewrite String.eqb_refl.
  - destruct (first_event qmp_output) as [e|] eqn:He.
    + rewrite (handler_on_event qmp_output vm e He), (handle_event_cases e vm).
      destruct vm as [st name d tp mac user ci addr msg uss dms proc]. run_member.
      destruct e, st, proc; cbn -[String.eqb]; rewrite ?String.eqb_refl; reflexivity.
    + rewrite (handler_on_no_event qmp_output vm He). reflexivity.
  - run_on vm. reflexivity.
  - run_on vm. reflexivity.
  - run_on vm. destruct uss; reflexivity.
  - run_on vm. destruct uss, st; cbn -[String.eqb]; rewrite ?String.eqb_refl; reflexivity.
  - run_on vm. destruct st; cbn -[String.eqb]; rewrite ?String.eqb_refl; reflexivity.
Qed.


End Order.

Section Compositions.

Local Opaque qmp_execute_json hmc_to_qmp_json QJsonParser.fromJson.

(** X17: a suspend of a running child in state [running] or
    [delayed_shutdown], followed by a chunk whose first line is the [RESUME]
    event, the error signal of the kill and the exit of the child, is never
    taken for a shutdown: the monitor sees neither [off] nor [on_shutdown].
    With [update_shutdown_status] set it ends in [suspended] with the flag
    cleared; the monitor sees [suspending] persisted and [on_suspend], and
    the child is written [savevm suspend], waited for and killed.  With the
    flag cleared nothing is persisted or waited for: from [running] the
    child is written [savevm suspend] and killed, the state becomes
    [suspended] and the monitor sees [on_suspend]; from [delayed_shutdown]
    the child is only written [savevm suspend] and the object stays as it
    was. *)
Theorem suspend_is_not_taken_for_a_shutdown
    (vm : QemuVirtualMachine) (p : Process) (chunk : QByteArray)
    (err : ProcessError) (exitCode : Z) (exitStatus : ExitStatus) :
  vm_process vm = Some p ->
  first_event chunk = Some RESUME ->
  let history :=
    [call_suspend true; signal_ready_read_standard_output chunk;
     signal_error_occurred err; signal_finished exitCode exitStatus] in
  (update_shutdown_status vm = true ->
   state vm = running \/ state vm = delayed_shutdown ->
   fst (perform_all history vm)
   = set_state suspended (set_update_shutdown_status false vm)
   /\ filter reaches_monitor (snd (perform_all history vm))
      = [persist_state_for (vm_name vm) suspending; monitor_on_suspend]
   /\ filter acts_on_process (snd (perform_all history vm))
      = [process_write (hmc_to_qmp_json "savevm suspend"); process_wait_for_finished;
         process_kill]) /\
  (update_shutdown_status vm = false ->
   state vm = running ->
   fst (perform_all history vm) = set_state suspended vm
   /\ filter reaches_monitor (snd (perform_all history vm)) = [monitor_on_suspend]
   /\ filter acts_on_process (snd (perform_all history vm))
      = [process_write (hmc_to_qmp_json "savevm suspend"); process_kill]) /\
  (update_shutdown_status vm = false ->
   state vm = delayed_shutdown ->
   fst (perform_all history vm) = vm
   /\ filter reaches_monitor (snd (perform_all history vm)) = []
   /\ filter acts_on_process (snd (perform_all history vm))
      = [process_write (hmc_to_qmp_json "savevm suspend")]).
Proof.
  intros Hp He. cbv zeta. cbn [perform_all perform].
  destruct vm as [st name d tp mac user ci addr msg uss dms proc].
  cbn [vm_process update_shutdown_status state] in *. subst proc.
  refine (conj _ (conj _ _)).
  - intros -> [ -> | -> ].
    all: unfold suspend; run_member;
      rewrite (handler_on_event chunk _ RESUME He), (handle_event_cases RESUME _);
      unfold error_occurred_handler, finished_handler, on_shutdown; run_member;
      repeat split.
  - intros -> ->.
    unfold suspend; run_member;
      rewrite (handler_on_event chunk _ RESUME He), (handle_event_cases RESUME _);
      unfold error_occurred_handler, finished_handler, on_shutdown; run_member;
      repeat split.
  - intros -> ->.
    unfold suspend; run_member;
      rewrite (handler_on_event chunk _ RESUME He), (handle_event_cases RESUME _);
      unfold error_occurred_handler, finished_handler, on_shutdown; run_member;
      repeat split.
Qed.

(** X18: a shutdown of a running child in state [running],
    [delayed_shutdown] or [unknown] writes [system_powerdown] and waits, and
    what the exit of the child then does depends on
    [update_shutdown_status].  With the flag set the machine ends in [off]
    with the address forgotten, and the monitor sees [off] persisted and then
    [on_shutdown].  With the flag cleared the exit is only logged: the object
    stays as it was, state and address included, and nothing reaches the
    monitor. *)
Theorem shutdown_then_exit_turns_off
    (vm : QemuVirtualMachine) (p : Process) (exitCode : Z) (exitStatus : ExitStatus) :
  vm_process vm = Some p ->
  state vm = running \/ state vm = delayed_shutdown \/ state vm = unknown ->
  let history := [call_shutdown true; signal_finished exitCode exitStatus] in
  filter acts_on_process (snd (perform_all history vm))
  = [process_write (qmp_execute_json "system_powerdown"); process_wait_for_finished]
  /\ (update_shutdown_status vm = true ->
      fst (perform_all history vm) = set_ip None (set_state off vm)
      /\ filter reaches_monitor (snd (perform_all history vm))
         = [persist_state_for (vm_name vm) off; monitor_on_shutdown])
  /\ (update_shutdown_status vm = false ->
      fst (perform_all history vm) = vm
      /\ filter reaches_monitor (snd (perform_all history vm)) = []).
Proof.
  intros Hp Hst. cbv zeta. cbn [perform_all perform].
  destruct vm as [st name d tp mac user ci addr msg uss dms proc].
  cbn [vm_process update_shutdown_status state] in *. subst proc.
  destruct Hst as [ -> | [ -> | -> ] ].
  all: unfold shutdown, finished_handler, on_shutdown, on_shutdown_rest; run_member;
    destruct uss; run_member;
    refine (conj eq_refl (conj _ _)); intros H; try discriminate H; split; reflexivity.
Qed.

(** X19: when the child dies while the machine is [starting], the exit handler
    and the check of the start race.  If the handler comes first it parks,
    whatever [update_shutdown_status] is; the check throws with the message
    [shutdown called while starting] and the woken handler turns the machine
    [off], forgets the address, persists the state and notifies the monitor.
    If the check comes first it marks the machine [off] and throws with the
    saved error message; the handler then runs [on_shutdown] to the same
    state and notifications only when [update_shutdown_status] is set, and
    with the flag cleared it only logs: the address stays and nothing
    reaches the monitor. *)
Theorem child_death_while_starting_in_either_order
    (vm : QemuVirtualMachine) (p : Process) (exitCode : Z) (exitStatus : ExitStatus) :
  vm_process vm = Some p ->
  state vm = starting ->
  let exit_first := finished_handler exitCode exitStatus vm in
  let then_check := ensure_vm_is_running false (object_of exit_first) in
  let then_woken := on_shutdown_woken (object_of then_check) in
  let check_first := ensure_vm_is_running false vm in
  let then_exit := finished_handler exitCode exitStatus (object_of check_first) in
  (value_of exit_first = returns waiting_for_off
   /\ value_of then_check
      = throws (StartException (vm_name vm)
                  (vm_name vm ++ ": shutdown called while starting"))
   /\ then_woken
      = (returns completed,
         set_ip None (set_state off
           (set_saved_error_msg (vm_name vm ++ ": shutdown called while starting") vm)),
         [persist_state_for (vm_name vm) off; monitor_on_shutdown]))
  /\ (value_of check_first = throws (StartException (vm_name vm) (saved_error_msg vm))
      /\ object_of check_first = set_state off vm
      /\ value_of then_exit = returns completed)
  /\ (update_shutdown_status vm = true ->
      object_of then_exit = set_ip None (set_state off vm)
      /\ filter reaches_monitor (effects_of then_exit)
         = [persist_state_for (vm_name vm) off; monitor_on_shutdown])
  /\ (update_shutdown_status vm = false ->
      object_of then_exit = set_state off vm
      /\ filter reaches_monitor (effects_of then_exit) = []).
Proof.
  intros Hp Hst. cbv zeta.
  destruct vm as [st name d tp mac user ci addr msg uss dms proc].
  cbn [vm_process update_shutdown_status state] in *. subst proc st.
  unfold finished_handler, ensure_vm_is_running, on_shutdown_woken, on_shutdown,
    on_shutdown_rest. run_member.
  destruct uss; run_member;
    refine (conj _ (conj _ (conj _ _))); try (repeat split; reflexivity);
    intros H; try discriminate H; split; reflexivity.
Qed.

End Compositions.

Lemma suspend_is_not_taken_for_a_shutdown_witness :
  fst (perform_all
         [call_suspend true; signal_ready_read_standard_output (qmp_event_line "RESUME");
          signal_error_occurred Crashed; signal_finished 0 CrashExit]
         (sample_vm running))
  = set_state suspended (set_update_shutdown_status false (sample_vm running))
  /\ fst (perform_all
            [call_suspend true; signal_ready_read_standard_output (qmp_event_line "RESUME");
             signal_error_occurred Crashed; signal_finished 0 CrashExit]
            (set_update_shutdown_status false (sample_vm delayed_shutdown)))
     = set_update_shutdown_status false (sample_vm delayed_shutdown).
Proof.
  split.
  - apply (proj1 (suspend_is_not_taken_for_a_shutdown (sample_vm running) sample_process
                    (qmp_event_line "RESUME") Crashed 0 CrashExit eq_refl eq_refl)
             eq_refl (or_introl eq_refl)).
  - apply (proj2 (proj2 (suspend_is_not_taken_for_a_shutdown
                           (set_update_shutdown_status false (sample_vm delayed_shutdown))
                           sample_process (qmp_event_line "RESUME") Crashed 0 CrashExit
                           eq_refl eq_refl))
             eq_refl eq_refl).
Defined.

Lemma shutdown_then_exit_turns_off_witness :
  fst (perform_all [call_shutdown true; signal_finished 0 NormalExit]
         (set_ip (Some "10.122.80.17") (sample_vm running)))
  = set_ip None (set_state off (sample_vm running))
  /\ fst (perform_all [call_shutdown true; signal_finished 0 NormalExit]
            (set_update_shutdown_status false
               (set_ip (Some "10.122.80.17") (sample_vm running))))
     = set_update_shutdown_status false (set_ip (Some "10.122.80.17") (sample_vm running)).
Proof.
  split.
  - apply (proj1 (proj2 (shutdown_then_exit_turns_off
                           (set_ip (Some "10.122.80.17") (sample_vm running))
                           sample_process 0 NormalExit eq_refl (or_introl eq_refl)))
             eq_refl).
  - apply (proj2 (proj2 (shutdown_then_exit_turns_off
                           (set_update_shutdown_status false
                              (set_ip (Some "10.122.80.17") (sample_vm running)))
                           sample_process 0 NormalExit eq_refl (or_introl eq_refl)))
             eq_refl).
Defined.

Lemma child_death_while_starting_in_either_order_witness :
  value_of (ensure_vm_is_running false
              (object_of (finished_handler 1 CrashExit
                            (set_saved_error_msg "qemu: no kvm" (sample_vm starting)))))
  = throws (StartException "primary" "primary: shutdown called while starting")
  /\ value_of (ensure_vm_is_running false
                 (set_saved_error_msg "qemu: no kvm" (sample_vm starting)))
     = throws (StartException "primary" "qemu: no kvm")
  /\ filter reaches_monitor
       (effects_of
          (finished_handler 1 CrashExit
             (object_of (ensure_vm_is_running false
                           (set_update_shutdown_status false (sample_vm starting))))))
     = [].
Proof.
  refine (conj _ (conj _ _)).
  - apply (proj1 (child_death_while_starting_in_either_order
                    (set_saved_error_msg "qemu: no kvm" (sample_vm starting))
                    sample_process 1 CrashExit eq_refl eq_refl)).
  - apply (proj1 (proj2 (child_death_while_starting_in_either_order
                           (set_saved_error_msg "qemu: no kvm" (sample_vm starting))
                           sample_process 1 CrashExit eq_refl eq_refl))).
  - apply (proj2 (proj2 (proj2 (child_death_while_starting_in_either_order
                                  (set_update_shutdown_status false (sample_vm starting))
                                  sample_process 1 CrashExit eq_refl eq_refl)))
             eq_refl).
Defined.

Section CodecFacts.

(** X20: the two encodings of monitor commands lose nothing: different
    commands give different bytes, different command lines give different
    bytes, and no [execute] command is encoded as a human-monitor command
    is. *)
Theorem qmp_encoding_is_injective :
  (forall cmd cmd' : QString, qmp_execute_json cmd = qmp_execute_json cmd' -> cmd = cmd') /\
  (forall line line' : QString, hmc_to_qmp_json line = hmc_to_qmp_json line' -> line = line') /\
  (forall cmd line : QString, qmp_execute_json cmd <> hmc_to_qmp_json line).
Proof.
  refine (conj _ (conj _ _)).
  - intros cmd cmd' H. apply (f_equal QJsonParser.fromJson) in H.
    rewrite !fromJson_qmp_execute_json in H. now injection H.
  - intros line line' H. apply (f_equal QJsonParser.fromJson) in H.
    rewrite !fromJson_hmc_to_qmp_json in H. now injection H.
  - intros cmd line H. apply (f_equal QJsonParser.fromJson) in H.
    rewrite fromJson_qmp_execute_json, fromJson_hmc_to_qmp_json in H. discriminate H.
Qed.

End CodecFacts.

Lemma qmp_encoding_is_injective_witness :
  String.eqb (qmp_execute_json "system_powerdown") (hmc_to_qmp_json "system_powerdown") = false.
Proof.
  apply String.eqb_neq. apply (proj2 (proj2 qmp_encoding_is_injective)).
Defined.

Section Snapshot.

Variable sep : ascii.

(** A needle without the separator starts a string exactly when it starts
    the first piece of the string. *)
Lemma prefix_first_piece (needle s : string) :
  has_char sep needle = false ->
  String.prefix needle s = String.prefix needle (Qt.first (Qt.split sep s)).
Proof.
  revert needle. induction s as [|c s IH]; intros needle Hn; [reflexivity|].
  cbn [Qt.split]. destruct (Ascii.eqb_spec c sep) as [->|Hc].
  - cbn [Qt.first hd]. destruct needle as [|a needle]; [reflexivity|].
    cbn [has_char] in Hn. apply orb_false_elim in Hn. destruct Hn as [Ha _].
    apply Ascii.eqb_neq in Ha. cbn [String.prefix].
    destruct (ascii_dec a sep); [contradiction|reflexivity].
  - pose proof (split_not_nil sep s) as Hnn. specialize (IH).
    destruct (Qt.split sep s) as [|piece pieces] eqn:E; [contradiction|].
    cbn [Qt.first hd] in *. destruct needle as [|a needle]; [reflexivity|].
    cbn [has_char] in Hn. apply orb_false_elim in Hn. destruct Hn as [_ Hn].
    cbn [String.prefix]. destruct (ascii_dec a c); [|reflexivity]. now apply IH.
Qed.

(** Searching the pieces one by one finds what searching the whole finds. *)
Lemma contains_in_some_piece (needle s : string) :
  has_char sep needle = false ->
  existsb (Qt.contains needle) (Qt.split sep s) = Qt.contains needle s.
Proof.
  intros Hn. induction s as [|c s IH]; [cbn; now rewrite !orb_false_r|].
  pose proof (prefix_first_piece needle (String c s) Hn) as Hp.
  cbn [Qt.split] in *. destruct (Ascii.eqb_spec c sep) as [->|Hc].
  - cbn [existsb Qt.contains Qt.first hd] in *. rewrite IH, Hp.
    now rewrite orb_false_r.
  - pose proof (split_not_nil sep s) as Hnn.
    destruct (Qt.split sep s) as [|piece pieces] eqn:E; [contradiction|].
    cbn [existsb Qt.contains Qt.first hd] in *. rewrite <- IH, Hp.
    now rewrite orb_assoc.
Qed.

End Snapshot.

(** X21: the split into lines has no part in the test for a snapshot: an
    image counts as suspended exactly when the text [suspend] occurs anywhere
    in what [qemu-img snapshot -l] printed. *)
Theorem snapshot_is_any_occurrence_of_the_tag (host : Host) (image : string) :
  instance_image_has_snapshot host image = true
  <-> occurs_in "suspend" (run_cmd_for_output host "qemu-img" ["snapshot"; "-l"; image]).
Proof.
  unfold instance_image_has_snapshot.
  rewrite (contains_in_some_piece newline suspend_tag _ eq_refl).
  apply contains_occurs_in.
Qed.

Lemma snapshot_is_any_occurrence_of_the_tag_witness :
  instance_image_has_snapshot
    (sample_host "1         before-suspending      286M 2019-03-01 10:00:00" [] true)
    "/var/images/primary.img" = true.
Proof.
  apply (proj2 (snapshot_is_any_occurrence_of_the_tag
                  (sample_host "1         before-suspending      286M 2019-03-01 10:00:00"
                     [] true)
                  "/var/images/primary.img")).
  exists "1         before-", "ing      286M 2019-03-01 10:00:00". reflexivity.
Defined.

Section ChannelRead.

Import SshfsMountTest.

Lemma substring_full_length (s : string) (b k : nat) :
  b + k <= String.length s -> String.length (String.substring b k s) = k.
Proof.
  revert b k. induction s as [|c s IH]; intros b k H; cbn [String.length] in H.
  - assert (b = 0) by lia. assert (k = 0) by lia. subst. reflexivity.
  - destruct b as [|b]; cbn [String.substring].
    + destruct k as [|k]; [reflexivity|]. cbn [String.length]. rewrite IH; lia.
    + apply IH. lia.
Qed.

Lemma substring_split (s : string) (b k m : nat) :
  b + k + m <= String.length s ->
  String.substring b (k + m) s = String.substring b k s ++ String.substring (b + k) m s.
Proof.
  revert b k m. induction s as [|c s IH]; intros b k m H; cbn [String.length] in H.
  - assert (b = 0) by lia. assert (k = 0) by lia. assert (m = 0) by lia. subst. reflexivity.
  - destruct b as [|b].
    + destruct k as [|k]; [reflexivity|].
      cbn [Nat.add String.substring String.append]. f_equal.
      apply (IH 0 k m). lia.
    + cbn [Nat.add String.substring]. apply IH. lia.
Qed.

(** One call of the mock once the prerequisite command was seen. *)
Lemma channel_read_step (output : string) (remaining count : N) :
  (remaining <= N.of_nat (String.length output))%N ->
  (N.of_nat (String.length output) < 2 ^ 32)%N ->
  exists copied,
    channel_read output remaining true count
      = (copied, N.min count remaining, (remaining - N.min count remaining)%N)
    /\ N.of_nat (String.length copied) = N.min count remaining
    /\ pending output remaining
       = copied ++ pending output (remaining - N.min count remaining).
Proof.
  intros Hr Hs.
  unfold channel_read, uint32, pending. cbn [negb].
  rewrite (N.mod_small remaining) by lia.
  set (n := N.min count remaining).
  assert (Hn : (n <= remaining)%N) by (subst n; lia).
  eexists. refine (conj eq_refl (conj _ _)).
  - rewrite substring_full_length; lia.
  - replace (N.to_nat (N.of_nat (String.length output) - remaining))
      with (String.length output - N.to_nat remaining) by lia.
    replace (N.to_nat remaining) with (N.to_nat n + N.to_nat (remaining - n)) at 2 by lia.
    rewrite substring_split by lia. f_equal. f_equal. lia.
Qed.

(** X22: the read mock of the SSHFS test hands out nothing and keeps
    [remaining] while the prerequisite command was not seen; after that, with
    [remaining] within the output and the output shorter than 2^32 bytes, a
    call returns the smaller of [count] and [remaining], copies as many bytes,
    lowers [remaining] by that, and what it copied followed by what is still
    pending is what was pending before. *)
Theorem channel_read_hands_out_pending (output : string) (remaining count : N) :
  (remaining <= N.of_nat (String.length output))%N ->
  (N.of_nat (String.length output) < 2 ^ 32)%N ->
  channel_read output remaining false count = (EmptyString, 0%N, remaining)
  /\ let '(copied, returned, unread) := channel_read output remaining true count in
     returned = N.min count remaining
     /\ N.of_nat (String.length copied) = returned
     /\ unread = (remaining - returned)%N
     /\ pending output remaining = copied ++ pending output unread.
Proof.
  intros Hr Hs. split; [reflexivity|].
  destruct (channel_read_step output remaining count Hr Hs) as (copied & E & Hlen & Hpend).
  rewrite E. auto.
Qed.

Lemma pending_nothing (output : string) : pending output 0 = EmptyString.
Proof.
  unfold pending. cbn [N.to_nat]. generalize (String.length output - 0).
  induction output as [|c s IH]; intros [|k]; cbn; auto.
Qed.

(** X23: under the same conditions successive reads deliver the pending
    bytes in order without loss or repetition, leave [remaining] lowered by
    the sum of the counts (down to zero), and have delivered everything that
    was pending once the counts add up to [remaining]. *)
Theorem channel_reads_deliver_in_order (output : string) (remaining : N) (counts : list N) :
  (remaining <= N.of_nat (String.length output))%N ->
  (N.of_nat (String.length output) < 2 ^ 32)%N ->
  let '(delivered, unread) := channel_reads output remaining counts in
  pending output remaining = delivered ++ pending output unread
  /\ unread = (remaining - fold_right N.add 0 counts)%N
  /\ ((remaining <= fold_right N.add 0 counts)%N -> delivered = pending output remaining).
Proof.
  intros Hr Hs. revert remaining Hr. induction counts as [|count later IH]; intros remaining Hr.
  - cbn [channel_reads fold_right]. refine (conj eq_refl (conj _ _)); [lia|].
    intros H. assert (remaining = 0%N) by lia. subst. now rewrite pending_nothing.
  - cbn [channel_reads fold_right].
    destruct (channel_read_step output remaining count Hr Hs) as (copied & E & Hlen & Hpend).
    rewrite E. set (unread1 := (remaining - N.min count remaining)%N) in *.
    assert (Hr1 : (unread1 <= N.of_nat (String.length output))%N) by (subst unread1; lia).
    specialize (IH unread1 Hr1).
    destruct (channel_reads output unread1 later) as [more unread2].
    destruct IH as (Hp2 & Hl2 & Hall).
    refine (conj _ (conj _ _)).
    + rewrite Hpend, Hp2. now rewrite append_assoc.
    + subst unread1. lia.
    + intros H. rewrite Hpend. f_equal. apply Hall. subst unread1. lia.
Qed.

End ChannelRead.

Lemma channel_read_hands_out_pending_witness :
  SshfsMountTest.channel_read "1000" 4 false 3 = (EmptyString, 0%N, 4%N)
  /\ SshfsMountTest.channel_read "1000" 4 true 3 = ("100", 3%N, 1%N).
Proof.
  assert (Hr : (4 <= N.of_nat (String.length "1000"))%N) by (vm_compute; discriminate).
  assert (Hs : (N.of_nat (String.length "1000") < 2 ^ 32)%N) by reflexivity.
  split.
  - exact (proj1 (channel_read_hands_out_pending "1000" 4 3 Hr Hs)).
  - reflexivity.
Defined.

Lemma channel_reads_deliver_in_order_witness :
  SshfsMountTest.channel_reads "ubuntu" 6 [4%N; 4%N; 4%N] = ("ubuntu", 0%N).
Proof.
  assert (Hr : (6 <= N.of_nat (String.length "ubuntu"))%N) by (vm_compute; discriminate).
  assert (Hs : (N.of_nat (String.length "ubuntu") < 2 ^ 32)%N) by reflexivity.
  pose proof (channel_reads_deliver_in_order "ubuntu" 6 [4%N; 4%N; 4%N] Hr Hs) as H.
  destruct (SshfsMountTest.channel_reads "ubuntu" 6 [4%N; 4%N; 4%N]) as [delivered unread].
  destruct H as (_ & Hu & Hd).
  rewrite Hu, Hd; [reflexivity | vm_compute; discriminate].
Defined.

Section ExecMock.

Import SshfsMountTest.

(** X24: the exec mock of the SSHFS test always answers [SSH_OK]; it sets
    [invoked] and makes the exit status [SSH_ERROR] when one of the expected
    commands occurs in the command executed, and changes nothing otherwise,
    so a flag that was set stays set. *)
Theorem request_exec_fails_on_expected_commands
    (expected_cmds : list string) (cmd : string) (m : ExecMock) :
  fst (request_exec expected_cmds cmd m) = SSH_OK
  /\ snd (request_exec expected_cmds cmd m)
     = if existsb (fun expected_cmd => Qt.contains expected_cmd cmd) expected_cmds
       then {| invoked := true; exit_code := Some SSH_ERROR |}
       else m.
Proof.
  split; [reflexivity|]. cbn [request_exec snd]. revert m.
  induction expected_cmds as [|expected_cmd rest IH]; intros m; [reflexivity|].
  cbn [fails_for existsb]. rewrite IH.
  destruct (Qt.contains expected_cmd cmd), (existsb _ rest); reflexivity.
Qed.

End ExecMock.
